(** * The Parquet tool's query builder (aden_tools/tools/parquet_tool)

  A shallow embedding of [parquet_tool.py]: the identifier whitelist,
  the clause assembler [_build_query] and the three registered tools
  [parquet_read], [parquet_write] and [parquet_info], followed by the
  properties the specification states about them.

  Conventions of the embedding.
  - A Python [str] is a [string]; each [ascii] stands for the code
    point of the same number (0..255).
  - The values a request dictionary can hold are [pyval]: [None],
    booleans, integers, strings and lists of these.  Floats and nested
    dictionaries are left out.
  - A dictionary is only ever read through [.get] on fixed keys, so a
    filter, aggregate or ordering entry is a record of what [.get]
    returns for each key.
  - Early [return]s and raised exceptions are threaded through a small
    control-flow monad; I/O is a trace of events over an abstract
    [world]. *)

From Stdlib Require Import Bool Arith ZArith Lia List Ascii String.
From Stdlib Require DecimalString.
Import ListNotations.

Local Open Scope list_scope.
Local Open Scope string_scope.

(** ** Python values and string builtins *)

Module Py.

#[warnings="-register-all"]
Inductive pyval : Type :=
| VNone
| VBool (b : bool)
| VInt (z : Z)
| VStr (s : string)
| VList (l : list pyval).

(** [bool(v)] *)
Definition truthy (v : pyval) : bool :=
  match v with
  | VNone => false
  | VBool b => b
  | VInt z => negb (Z.eqb z 0)
  | VStr s => negb (String.eqb s "")
  | VList l => match l with [] => false | _ :: _ => true end
  end.

Definition code (c : ascii) : nat := nat_of_ascii c.

Definition in_range (lo hi : nat) (c : ascii) : bool :=
  (lo <=? code c)%nat && (code c <=? hi)%nat.

(** [str.lower] on one code point below 256: [A-Z], and the Latin-1
    capitals U+00C0..U+00DE except the multiplication sign U+00D7. *)
Definition lower_char (c : ascii) : ascii :=
  if in_range 65 90 c then ascii_of_nat (code c + 32)
  else if in_range 192 222 c && negb (code c =? 215)%nat
       then ascii_of_nat (code c + 32)
       else c.

Fixpoint lower (s : string) : string :=
  match s with
  | EmptyString => EmptyString
  | String c r => String (lower_char c) (lower r)
  end.

(** [str.upper] on ASCII text; the builder applies it to members of
    [ALLOWED_ORDER] only. *)
Definition upper_char (c : ascii) : ascii :=
  if in_range 97 122 c then ascii_of_nat (code c - 32) else c.

Fixpoint upper (s : string) : string :=
  match s with
  | EmptyString => EmptyString
  | String c r => String (upper_char c) (upper r)
  end.

(** [s.endswith(suffix)] *)
Definition endswith (s suffix : string) : bool :=
  (String.length suffix <=? String.length s)%nat
  && String.eqb
       (substring (String.length s - String.length suffix)
                  (String.length suffix) s)
       suffix.

(** [sep.join(parts)] *)
Definition join (sep : string) (parts : list string) : string :=
  String.concat sep parts.

(** [s.count(c)] for a one-character needle *)
Fixpoint count (c : ascii) (s : string) : nat :=
  match s with
  | EmptyString => 0
  | String d r => (if Ascii.eqb d c then 1 else 0) + count c r
  end.

(** [c in s] for a one-character needle *)
Fixpoint contains (c : ascii) (s : string) : bool :=
  match s with
  | EmptyString => false
  | String d r => Ascii.eqb d c || contains c r
  end.

(** [x in {...}] for a set of strings *)
Definition member (x : string) (set : list string) : bool :=
  existsb (String.eqb x) set.

Definition hex_digit (n : nat) : ascii :=
  if (n <? 10)%nat then ascii_of_nat (48 + n) else ascii_of_nat (87 + n).

Definition hex_escape (c : ascii) : string :=
  String "\" (String "x"
    (String (hex_digit (code c / 16))
       (String (hex_digit (code c mod 16)) EmptyString))).

(** Code points that [repr] writes as an escape: the C0 and C1
    controls, DEL, the no-break space and the soft hyphen. *)
Definition unprintable (c : ascii) : bool :=
  (code c <? 32)%nat || in_range 127 160 c || (code c =? 173)%nat.

Definition repr_char (quote c : ascii) : string :=
  if Ascii.eqb c quote || Ascii.eqb c "\" then String "\" (String c EmptyString)
  else if (code c =? 9)%nat then "\t"
  else if (code c =? 10)%nat then "\n"
  else if (code c =? 13)%nat then "\r"
  else if unprintable c then hex_escape c
  else String c EmptyString.

Fixpoint repr_chars (quote : ascii) (s : string) : string :=
  match s with
  | EmptyString => EmptyString
  | String c r => repr_char quote c ++ repr_chars quote r
  end.

Definition dquote : ascii := ascii_of_nat 34.

(** [repr(s)] for a string: single quotes unless the text holds a
    single quote and no double quote. *)
Definition repr_str (s : string) : string :=
  let quote :=
    if contains "'" s && negb (contains dquote s) then dquote else "'"%char in
  String quote (repr_chars quote s ++ String quote EmptyString).

Definition str_int (z : Z) : string :=
  DecimalString.NilZero.string_of_int (Z.to_int z).

(** [repr(v)] *)
Fixpoint repr (v : pyval) : string :=
  match v with
  | VNone => "None"
  | VBool true => "True"
  | VBool false => "False"
  | VInt z => str_int z
  | VStr s => repr_str s
  | VList l => "[" ++ join ", " (List.map repr l) ++ "]"
  end.

(** [str(v)] *)
Definition str (v : pyval) : string :=
  match v with
  | VStr s => s
  | _ => repr v
  end.

(** [l.append(x)] and [l.extend(xs)], as the new list *)
Definition append {A} (l : list A) (x : A) : list A := (l ++ [x])%list.
Definition extend {A} (l xs : list A) : list A := (l ++ xs)%list.

(** Exceptions: the [TypeError] of [re.match] on a value that is not
    a string, an [ImportError], and whatever a collaborator raises,
    carried with its text. *)
Inductive pyexn : Type :=
| TypeError (culprit : pyval)
| ImportError (module : string)
| External (text : string).

(** Control flow inside a function body whose early [return]s carry
    an [R]: fall through with a value, return, or raise. *)
Inductive flow (R A : Type) : Type :=
| Next (a : A)
| Return_ (r : R)
| Raise (e : pyexn).

Arguments Next {R A} a.
Arguments Return_ {R A} r.
Arguments Raise {R A} e.

Definition bind {R A B} (m : flow R A) (k : A -> flow R B) : flow R B :=
  match m with
  | Next a => k a
  | Return_ r => Return_ r
  | Raise e => Raise e
  end.

(** What a call yields: a value or an exception. *)
Inductive outcome (R : Type) : Type :=
| Value (r : R)
| Throw (e : pyexn).

Arguments Value {R} r.
Arguments Throw {R} e.

(** Running a body to the end of the function. *)
Definition run {R} (m : flow R R) : outcome R :=
  match m with
  | Next r => Value r
  | Return_ r => Value r
  | Raise e => Throw e
  end.

End Py.

Import Py.

Notation "x <- m ;; k" := (bind m (fun x => k))
(at level 61, m at next level, right associativity).
Notation "m ;;; k" := (bind m (fun _ => k))
(at level 61, right associativity).
Notation "' pat <- m ;; k" := (bind m (fun x => let 'pat := x in k))
(at level 61, pat pattern, m at next level, right associativity).

(** ** The fragment of [re] the tool uses *)

Module Re.

(** Pattern items: [^], [$], one character of a class, and a starred
    class. *)
Inductive item : Type :=
| Bol
| Eol
| Once (cls : ascii -> bool)
| Star (cls : ascii -> bool).

(** [$] without [re.MULTILINE]: at the end of the text, or just before
    a newline that is the last character. *)
Definition at_eol (rest : string) : bool :=
  match rest with
  | EmptyString => true
  | String c EmptyString => (code c =? 10)%nat
  | _ => false
  end.

(** Backtracking match of the items at the current position; [start]
    tells whether the position is the beginning of the text.  A match
    need not reach the end of the text. *)
Fixpoint match_here (items : list item) (start : bool) (text : string)
  {struct items} : bool :=
  match items with
  | [] => true
  | Bol :: more => start && match_here more start text
  | Eol :: more => at_eol text && match_here more start text
  | Once cls :: more =>
      match text with
      | String c rest => cls c && match_here more false rest
      | EmptyString => false
      end
  | Star cls :: more =>
      (fix greedy (start : bool) (text : string) {struct text} : bool :=
         match text with
         | String c rest =>
             (cls c && greedy false rest) || match_here more start text
         | EmptyString => match_here more start text
         end) start text
  end.

(** [pattern.match(text)]: a match anchored at position 0. *)
Definition match_ (pattern : list item) (text : string) : bool :=
  match_here pattern true text.

(** The ranges [A-Za-z] and [0-9], and the underscore. *)
Definition letter (c : ascii) : bool :=
  in_range 65 90 c || in_range 97 122 c.

Definition digit (c : ascii) : bool := in_range 48 57 c.

Definition underscore (c : ascii) : bool := (code c =? 95)%nat.

End Re.

(** ** parquet_tool.py *)

Module Parquet.

Definition ALLOWED_OPERATORS : list string :=
  ["="; "!="; ">"; "<"; ">="; "<="; "in"; "like"].
Definition ALLOWED_AGGREGATES : list string :=
  ["count"; "sum"; "avg"; "min"; "max"].
Definition ALLOWED_ORDER : list string := ["asc"; "desc"].

(** [[A-Za-z_]] and [[A-Za-z0-9_]] *)
Definition head_class (c : ascii) : bool := Re.letter c || Re.underscore c.
Definition body_class (c : ascii) : bool :=
  Re.letter c || Re.digit c || Re.underscore c.

(** [re.compile(r"^[A-Za-z_][A-Za-z0-9_]*$")] *)
Definition IDENTIFIER_RE : list Re.item :=
  [Re.Bol; Re.Once head_class; Re.Star body_class; Re.Eol].

Definition _validate_identifier (name : string) : bool :=
  Re.match_ IDENTIFIER_RE name.

(** The dictionaries of a request, as [.get] sees them: [None] in an
    [option] field is a missing key whose [.get] names a default. *)
Record filter : Type := Filter {
  filter_column : pyval;           (* condition.get("column") *)
  filter_op : option pyval;        (* condition.get("op", "") *)
  filter_value : pyval             (* condition.get("value") *)
}.

Record aggregate : Type := Aggregate {
  agg_column : pyval;              (* agg.get("column") *)
  agg_op : option pyval;           (* agg.get("op", "") *)
  agg_alias : pyval                (* agg.get("alias") *)
}.

Record ordering : Type := Ordering {
  order_column : pyval;            (* entry.get("column") *)
  order_direction : option pyval   (* entry.get("direction", "asc") *)
}.

Definition get_or (default : string) (field : option pyval) : pyval :=
  match field with
  | Some v => v
  | None => VStr default
  end.

(** The second slot of the pair [_build_query] returns: the parameter
    list next to a statement, the dictionary [{"error": text}] next to
    [None]. *)
Inductive payload : Type :=
| Params (params : list pyval)
| ErrorDict (text : string).

Definition built : Type := (option string * payload)%type.

Definition _error_invalid_identifier (name : string) : payload :=
  ErrorDict ("Invalid column name: " ++ name).

(** [if xs:] on an optional list *)
Definition given {A} (xs : option (list A)) : bool :=
  match xs with
  | Some (_ :: _) => true
  | _ => false
  end.

Definition items {A} (xs : option (list A)) : list A :=
  match xs with
  | Some l => l
  | None => []
  end.

(** [_validate_identifier] on a value of a dictionary: [re.match]
    raises [TypeError] on anything but a string. *)
Definition validate_value {R} (v : pyval) : flow R bool :=
  match v with
  | VStr s => Next (_validate_identifier s)
  | _ => Raise (TypeError v)
  end.

(** [not column or not _validate_identifier(column)] *)
Definition column_rejected {R} (column : pyval) : flow R bool :=
  if negb (truthy column) then Next true
  else ok <- validate_value column ;; Next (negb ok).

(** The loops over [selected_columns] and over [group_by]. *)
Fixpoint check_columns (cols : list string) : flow built unit :=
  match cols with
  | [] => Next tt
  | col :: rest =>
      if negb (_validate_identifier col)
      then Return_ (None, _error_invalid_identifier col)
      else check_columns rest
  end.

(** The loop over [aggregates], appending to [select_parts]. *)
Fixpoint aggregates_loop (aggs : list aggregate) (select_parts : list string)
  : flow built (list string) :=
  match aggs with
  | [] => Next select_parts
  | agg :: rest =>
      let column := agg_column agg in
      let func := lower (str (get_or "" (agg_op agg))) in
      let alias := agg_alias agg in
      bad <- column_rejected column ;;
      if bad then Return_ (None, _error_invalid_identifier (str column))
      else if negb (member func ALLOWED_AGGREGATES)
      then Return_ (None, ErrorDict ("Unsupported aggregate: " ++ func))
      else
        let expr := func ++ "(" ++ str column ++ ")" in
        expr <- (if truthy alias
                 then ok <- validate_value alias ;;
                      if negb ok
                      then Return_ (None, _error_invalid_identifier (str alias))
                      else Next (expr ++ " AS " ++ str alias)
                 else Next expr) ;;
        aggregates_loop rest (append select_parts expr)
  end.

(** [", ".join(["?"] * n)] *)
Definition placeholders (n : nat) : string := join ", " (repeat "?" n).

(** The loop over [filters], appending to [where_parts] and [params]. *)
Fixpoint filters_loop (conds : list filter)
  (where_parts : list string) (params : list pyval)
  : flow built (list string * list pyval) :=
  match conds with
  | [] => Next (where_parts, params)
  | condition :: rest =>
      let column := filter_column condition in
      let op := lower (str (get_or "" (filter_op condition))) in
      let value := filter_value condition in
      bad <- column_rejected column ;;
      if bad then Return_ (None, _error_invalid_identifier (str column))
      else if negb (member op ALLOWED_OPERATORS)
      then Return_ (None, ErrorDict ("Unsupported operator: " ++ op))
      else if String.eqb op "in"
      then match value with
           | VList (v :: vs) =>
               filters_loop rest
                 (append where_parts
                    (str column ++ " IN (" ++ placeholders (List.length (v :: vs)) ++ ")"))
                 (extend params (v :: vs))
           | _ => Return_ (None, ErrorDict "IN operator requires a non-empty list value")
           end
      else filters_loop rest
             (append where_parts (str column ++ " " ++ op ++ " ?"))
             (append params value)
  end.

(** The loop over [order_by], appending to [order_parts]. *)
Fixpoint order_loop (entries : list ordering) (order_parts : list string)
  : flow built (list string) :=
  match entries with
  | [] => Next order_parts
  | entry :: rest =>
      let column := order_column entry in
      let direction := lower (str (get_or "asc" (order_direction entry))) in
      bad <- column_rejected column ;;
      if bad then Return_ (None, _error_invalid_identifier (str column))
      else if negb (member direction ALLOWED_ORDER)
      then Return_ (None, ErrorDict ("Unsupported order direction: " ++ direction))
      else order_loop rest (append order_parts (str column ++ " " ++ upper direction))
  end.

(** Lines 114-129: the statement text and the two trailing parameters. *)
Definition assemble (table_expr : string) (select_parts where_parts : list string)
  (group_by : option (list string)) (order_parts : list string)
  (limit : option Z) (offset : Z) (params : list pyval) : built :=
  let query := "SELECT " ++ join ", " select_parts ++ " FROM " ++ table_expr in
  let query :=
    match where_parts with
    | _ :: _ => query ++ " WHERE " ++ join " AND " where_parts
    | [] => query
    end in
  let query :=
    if given group_by then query ++ " GROUP BY " ++ join ", " (items group_by)
    else query in
  let query :=
    match order_parts with
    | _ :: _ => query ++ " ORDER BY " ++ join ", " order_parts
    | [] => query
    end in
  let '(query, params) :=
    match limit with
    | Some n => (query ++ " LIMIT ?", append params (VInt n))
    | None => (query, params)
    end in
  let '(query, params) :=
    if negb (Z.eqb offset 0)
    then (query ++ " OFFSET ?", append params (VInt offset))
    else (query, params) in
  (Some query, Params params).

Definition build_body
  (table_expr : string)
  (selected_columns : option (list string))
  (filters : option (list filter))
  (group_by : option (list string))
  (order_by : option (list ordering))
  (limit : option Z)
  (offset : Z)
  (aggregates : option (list aggregate)) : flow built built :=
  let params : list pyval := [] in
  (if given selected_columns then check_columns (items selected_columns)
   else Next tt) ;;;
  (if given group_by then check_columns (items group_by) else Next tt) ;;;
  select_parts <-
    (if given group_by
     then if given aggregates
          then aggregates_loop (items aggregates) (extend [] (items group_by))
          else Next (items group_by)
     else if given selected_columns then Next (items selected_columns)
     else Next ["*"]) ;;
  '(where_parts, params) <-
    (if given filters then filters_loop (items filters) [] params
     else Next ([], params)) ;;
  order_parts <-
    (if given order_by then order_loop (items order_by) [] else Next []) ;;
  Next (assemble table_expr select_parts where_parts group_by order_parts
          limit offset params).

Definition _build_query
  (table_expr : string)
  (selected_columns : option (list string))
  (filters : option (list filter))
  (group_by : option (list string))
  (order_by : option (list ordering))
  (limit : option Z)
  (offset : Z)
  (aggregates : option (list aggregate)) : outcome built :=
  run (build_body table_expr selected_columns filters group_by order_by
         limit offset aggregates).


(** *** The registered tools and their collaborators *)

(** What the engine hands back for a statement: column names and row
    tuples. *)
Record table : Type := Table {
  table_columns : list string;
  table_rows : list (list pyval)
}.

(** A row of [parquet_write]: a dictionary from column name to value. *)
Definition record : Type := list (string * pyval).

(** Every step that leaves the process, in the order it happens. *)
Inductive event : Type :=
| Import (module : string)
| ResolvePath (path workspace_id agent_id session_id : string)
| PathExists (p : string)
| MakeDirs (p : string)
| GetSize (p : string)
| DataFrame (rows : list record) (columns : list string)
| Connect
| Register (name : string)
| Execute (statement : string) (params : list pyval).

(** The collaborators the module imports: the path resolver, [os], the
    engine, [pandas], and the interpreter's wording of [str(exc)]. *)
Record world : Type := World {
  duckdb_installed : bool;
  pandas_installed : bool;
  get_secure_path : string -> string -> string -> string -> outcome string;
  path_exists : string -> bool;
  dirname : string -> string;
  makedirs : string -> outcome unit;
  getsize : string -> outcome Z;
  dataframe_len : list record -> list string -> outcome nat;
  execute : string -> list pyval -> outcome table;
  exc_text : pyexn -> string
}.

(** Tool bodies: control flow together with the trace so far. *)
Definition io (R A : Type) : Type := list event -> flow R A * list event.

Definition io_next {R A} (a : A) : io R A := fun tr => (Next a, tr).

Definition io_return {R A} (r : R) : io R A := fun tr => (Return_ r, tr).

Definition io_bind {R A B} (m : io R A) (k : A -> io R B) : io R B :=
  fun tr =>
    match m tr with
    | (Next a, tr') => k a tr'
    | (Return_ r, tr') => (Return_ r, tr')
    | (Raise e, tr') => (Raise e, tr')
    end.

Definition io_raise {R A} (e : pyexn) : io R A := fun tr => (Raise e, tr).

Notation "x <~ m ;; k" := (io_bind m (fun x => k))
(at level 61, m at next level, right associativity).

(** A call to a collaborator: logged, then its value or its exception. *)
Definition call {R A} (ev : event) (result : outcome A) : io R A :=
  fun tr =>
    (match result with
     | Value a => Next a
     | Throw e => Raise e
     end, append tr ev).

(** A call into code of this module, which leaves no event of its own. *)
Definition lift {R A} (result : outcome A) : io R A :=
  fun tr =>
    (match result with
     | Value a => Next a
     | Throw e => Raise e
     end, tr).

(** [try: body except Exception as exc: handler] *)
Definition try_except {R A} (body : io R A) (handler : pyexn -> io R A)
  : io R A :=
  fun tr =>
    match body tr with
    | (Raise e, tr') => handler e tr'
    | other => other
    end.

(** The dictionaries the tools return; [Listing] is [params_or_error]
    returned as it is when that slot holds the parameter list. *)
Inductive response : Type :=
| Error (text : string)
| ReadOk (path : string) (columns : list string) (column_count : nat)
    (rows : list (list pyval)) (row_count : nat) (total_rows : pyval)
    (offset : Z) (limit : option Z)
| WriteOk (path : string) (columns : list string) (column_count : nat)
    (rows_written : nat)
| InfoOk (path : string) (columns : list pyval) (column_count : nat)
    (total_rows : pyval) (file_size : Z)
| Listing (params : list pyval).

Definition of_payload (p : payload) : response :=
  match p with
  | ErrorDict text => Error text
  | Params params => Listing params
  end.

(** [*params_or_error]: the list itself, or the keys of the error
    dictionary. *)
Definition unpack (p : payload) : list pyval :=
  match p with
  | Params params => params
  | ErrorDict _ => [VStr "error"]
  end.

(** Running a tool from an empty trace. *)
Definition perform (body : io response response) : outcome response * list event :=
  match body [] with
  | (m, tr) => (run m, tr)
  end.

(** [row[0]] *)
Definition first_cell {R} (row : list pyval) : io R pyval :=
  match row with
  | c :: _ => io_next c
  | [] => io_raise (External "tuple index out of range")
  end.

(** [cursor.fetchone()[0]] *)
Definition fetchone_0 {R} (t : table) : io R pyval :=
  match table_rows t with
  | row :: _ => first_cell row
  | [] => io_raise (TypeError VNone)
  end.

Fixpoint first_cells {R} (rows : list (list pyval)) : io R (list pyval) :=
  match rows with
  | [] => io_next []
  | row :: rest =>
      c <~ first_cell row ;;
      cs <~ first_cells rest ;;
      io_next (c :: cs)
  end.

Section Tools.

Variable w : world.

(** [_require_duckdb()], followed by the caller's [if error: return error] *)
Definition _require_duckdb : io response unit :=
  found <~ call (Import "duckdb") (Value (duckdb_installed w)) ;;
  if found then io_next tt
  else io_return (Error "duckdb is required for parquet tools").

Definition count_statement : string := "SELECT COUNT(*) FROM read_parquet(?)".

Definition parquet_read
  (path workspace_id agent_id session_id : string)
  (limit : option Z) (offset : Z)
  (selected_columns : option (list string))
  (filters : option (list filter))
  (group_by : option (list string))
  (order_by : option (list ordering))
  (aggregates : option (list aggregate)) : io response response :=
  if (offset <? 0)%Z
     || match limit with Some n => (n <? 0)%Z | None => false end
  then io_return (Error "offset and limit must be non-negative")
  else if negb (endswith (lower path) ".parquet")
  then io_return (Error "File must have .parquet extension")
  else
    _ <~ _require_duckdb ;;
    try_except
      (secure_path <~ call (ResolvePath path workspace_id agent_id session_id)
                        (get_secure_path w path workspace_id agent_id session_id) ;;
       found <~ call (PathExists secure_path) (Value (path_exists w secure_path)) ;;
       if negb found then io_return (Error ("File not found: " ++ path))
       else
         let table_expr := "read_parquet(?)" in
         result <~ lift (_build_query table_expr selected_columns filters
                           group_by order_by limit offset aggregates) ;;
         let '(query, params_or_error) := result in
         match query with
         | None | Some EmptyString => io_return (of_payload params_or_error)
         | Some query =>
             let params := VStr secure_path :: unpack params_or_error in
             _ <~ call Connect (Value tt) ;;
             result <~ call (Execute query params) (execute w query params) ;;
             let rows := table_rows result in
             let columns := table_columns result in
             counted <~ call (Execute count_statement [VStr secure_path])
                          (execute w count_statement [VStr secure_path]) ;;
             total_rows <~ fetchone_0 counted ;;
             io_return
               (ReadOk path columns (List.length columns) rows
                  (List.length rows) total_rows offset limit)
         end)
      (fun exc =>
         io_return (Error ("Failed to read parquet: " ++ exc_text w exc))).

Definition copy_statement : string := "COPY data_df TO ? (FORMAT PARQUET)".

Definition parquet_write
  (path workspace_id agent_id session_id : string)
  (columns : list string) (rows : list record) : io response response :=
  if negb (endswith (lower path) ".parquet")
  then io_return (Error "File must have .parquet extension")
  else
    match columns with
    | [] => io_return (Error "columns cannot be empty")
    | _ :: _ =>
        _ <~ _require_duckdb ;;
        try_except
          (_ <~ call (Import "pandas")
                  (if pandas_installed w then Value tt
                   else Throw (ImportError "pandas")) ;;
           secure_path <~ call (ResolvePath path workspace_id agent_id session_id)
                            (get_secure_path w path workspace_id agent_id session_id) ;;
           let parent_dir := dirname w secure_path in
           _ <~ (if negb (String.eqb parent_dir "")
                 then call (MakeDirs parent_dir) (makedirs w parent_dir)
                 else io_next tt) ;;
           df_len <~ call (DataFrame rows columns) (dataframe_len w rows columns) ;;
           _ <~ call Connect (Value tt) ;;
           _ <~ call (Register "data_df") (Value tt) ;;
           _ <~ call (Execute copy_statement [VStr secure_path])
                  (execute w copy_statement [VStr secure_path]) ;;
           io_return (WriteOk path columns (List.length columns) df_len))
          (fun exc =>
             io_return (Error ("Failed to write parquet: " ++ exc_text w exc)))
    end.

Definition describe_statement : string := "DESCRIBE SELECT * FROM read_parquet(?)".

Definition parquet_info
  (path workspace_id agent_id session_id : string) : io response response :=
  if negb (endswith (lower path) ".parquet")
  then io_return (Error "File must have .parquet extension")
  else
    _ <~ _require_duckdb ;;
    try_except
      (secure_path <~ call (ResolvePath path workspace_id agent_id session_id)
                        (get_secure_path w path workspace_id agent_id session_id) ;;
       found <~ call (PathExists secure_path) (Value (path_exists w secure_path)) ;;
       if negb found then io_return (Error ("File not found: " ++ path))
       else
         _ <~ call Connect (Value tt) ;;
         describe <~ call (Execute describe_statement [VStr secure_path])
                       (execute w describe_statement [VStr secure_path]) ;;
         columns <~ first_cells (table_rows describe) ;;
         counted <~ call (Execute count_statement [VStr secure_path])
                      (execute w count_statement [VStr secure_path]) ;;
         total_rows <~ fetchone_0 counted ;;
         file_size <~ call (GetSize secure_path) (getsize w secure_path) ;;
         io_return
           (InfoOk path columns (List.length columns) total_rows file_size))
      (fun exc =>
         io_return (Error ("Failed to read parquet info: " ++ exc_text w exc))).

End Tools.


End Parquet.

Import Parquet.

(** ** What the specification says, in its own terms *)

Module Contract.

Definition newline : ascii := ascii_of_nat 10.

Fixpoint all_chars (cls : ascii -> bool) (s : string) : bool :=
  match s with
  | EmptyString => true
  | String c r => cls c && all_chars cls r
  end.

(** A match of the entire string against [[A-Za-z_][A-Za-z0-9_]*]. *)
Definition identifier_fullmatch (name : string) : bool :=
  match name with
  | String c rest => head_class c && all_chars body_class rest
  | EmptyString => false
  end.

Definition body_or_newline (c : ascii) : bool :=
  body_class c || (code c =? 10)%nat.

(** The text before a final newline, when there is one. *)
Fixpoint strip_newline (s : string) : option string :=
  match s with
  | EmptyString => None
  | String c EmptyString =>
      if (code c =? 10)%nat then Some EmptyString else None
  | String c rest => option_map (String c) (strip_newline rest)
  end.

(** How one step of validation ends when it does not pass: the text
    of the error dictionary, or the value [re.match] choked on. *)
Inductive fault : Type :=
| Rejected (text : string)
| Crashed (culprit : pyval).

Definition name_fault (name : string) : option fault :=
  if _validate_identifier name then None
  else Some (Rejected ("Invalid column name: " ++ name)).

(** A value in identifier position that is truthy. *)
Definition text_fault (v : pyval) : option fault :=
  match v with
  | VStr s => name_fault s
  | _ => Some (Crashed v)
  end.

Definition column_fault (column : pyval) : option fault :=
  if truthy column then text_fault column
  else Some (Rejected ("Invalid column name: " ++ str column)).

Definition agg_func (a : aggregate) : string :=
  lower (str (get_or "" (agg_op a))).

Definition aggregate_fault (a : aggregate) : option fault :=
  match column_fault (agg_column a) with
  | Some f => Some f
  | None =>
      if member (agg_func a) ALLOWED_AGGREGATES
      then if truthy (agg_alias a) then text_fault (agg_alias a) else None
      else Some (Rejected ("Unsupported aggregate: " ++ agg_func a))
  end.

Definition filter_operator (f : filter) : string :=
  lower (str (get_or "" (filter_op f))).

Definition is_in (f : filter) : bool := String.eqb (filter_operator f) "in".

(** [isinstance(value, list) and value] *)
Definition nonempty_list (v : pyval) : bool :=
  match v with
  | VList (_ :: _) => true
  | _ => false
  end.

(** The elements of a list value. *)
Definition in_values (v : pyval) : list pyval :=
  match v with
  | VList l => l
  | _ => []
  end.

Definition filter_fault (f : filter) : option fault :=
  match column_fault (filter_column f) with
  | Some e => Some e
  | None =>
      if member (filter_operator f) ALLOWED_OPERATORS
      then if is_in f
           then match in_values (filter_value f) with
                | [] => Some (Rejected "IN operator requires a non-empty list value")
                | _ :: _ => None
                end
           else None
      else Some (Rejected ("Unsupported operator: " ++ filter_operator f))
  end.

Definition order_dir (o : ordering) : string :=
  lower (str (get_or "asc" (order_direction o))).

Definition order_fault (o : ordering) : option fault :=
  match column_fault (order_column o) with
  | Some e => Some e
  | None =>
      if member (order_dir o) ALLOWED_ORDER then None
      else Some (Rejected ("Unsupported order direction: " ++ order_dir o))
  end.

(** The fault of the first entry that has one. *)
Fixpoint first_fault {A} (fault_of : A -> option fault) (l : list A)
  : option fault :=
  match l with
  | [] => None
  | x :: rest =>
      match fault_of x with
      | Some f => Some f
      | None => first_fault fault_of rest
      end
  end.

Definition or_else (a b : option fault) : option fault :=
  match a with
  | Some f => Some f
  | None => b
  end.

(** Faults of the stages that run before the filters are looked at. *)
Definition projection_fault
  (selected_columns group_by : option (list string))
  (aggregates : option (list aggregate)) : option fault :=
  or_else (first_fault name_fault (items selected_columns))
    (or_else (first_fault name_fault (items group_by))
       (if given group_by
        then first_fault aggregate_fault (items aggregates)
        else None)).

(** The first fault of a request, in the order the builder checks:
    selected columns, group-by columns, aggregates (under a group-by
    only), filters, orderings. *)
Definition query_fault
  (selected_columns : option (list string))
  (filters : option (list filter))
  (group_by : option (list string))
  (order_by : option (list ordering))
  (aggregates : option (list aggregate)) : option fault :=
  or_else (projection_fault selected_columns group_by aggregates)
    (or_else (first_fault filter_fault (items filters))
       (first_fault order_fault (items order_by))).

(** [func(column)], optionally [AS alias] *)
Definition render_aggregate (a : aggregate) : string :=
  let expr := agg_func a ++ "(" ++ str (agg_column a) ++ ")" in
  if truthy (agg_alias a) then expr ++ " AS " ++ str (agg_alias a) else expr.

(** [column IN (?, ?, ...)] or [column OP ?] *)
Definition render_filter (f : filter) : string :=
  if is_in f
  then str (filter_column f) ++ " IN ("
         ++ placeholders (List.length (in_values (filter_value f))) ++ ")"
  else str (filter_column f) ++ " " ++ filter_operator f ++ " ?".

Definition filter_params (f : filter) : list pyval :=
  if is_in f then in_values (filter_value f) else [filter_value f].

(** [column DIRECTION] *)
Definition render_order (o : ordering) : string :=
  str (order_column o) ++ " " ++ upper (order_dir o).

Definition projection
  (selected_columns group_by : option (list string))
  (aggregates : option (list aggregate)) : list string :=
  if given group_by
  then (items group_by ++ List.map render_aggregate (items aggregates))%list
  else if given selected_columns then items selected_columns
  else ["*"].

Definition select_from (table_expr : string) (columns : list string) : string :=
  "SELECT " ++ join ", " columns ++ " FROM " ++ table_expr.

Definition clause (keyword separator : string) (parts : list string) : string :=
  match parts with
  | [] => ""
  | _ :: _ => keyword ++ join separator parts
  end.

Definition where_clause (filters : list filter) : string :=
  clause " WHERE " " AND " (List.map render_filter filters).

Definition group_clause (group_by : option (list string)) : string :=
  clause " GROUP BY " ", " (items group_by).

Definition order_clause (order_by : list ordering) : string :=
  clause " ORDER BY " ", " (List.map render_order order_by).

Definition limit_clause (limit : option Z) : string :=
  match limit with
  | Some _ => " LIMIT ?"
  | None => ""
  end.

Definition limit_params (limit : option Z) : list pyval :=
  match limit with
  | Some n => [VInt n]
  | None => []
  end.

Definition offset_clause (offset : Z) : string :=
  if Z.eqb offset 0 then "" else " OFFSET ?".

Definition offset_params (offset : Z) : list pyval :=
  if Z.eqb offset 0 then [] else [VInt offset].

(** The statement up to, and without, the limit and offset clauses. *)
Definition body_text
  (table_expr : string)
  (selected_columns : option (list string))
  (filters : option (list filter))
  (group_by : option (list string))
  (order_by : option (list ordering))
  (aggregates : option (list aggregate)) : string :=
  select_from table_expr (projection selected_columns group_by aggregates)
    ++ where_clause (items filters)
    ++ group_clause group_by
    ++ order_clause (items order_by).

Definition filter_values (filters : list filter) : list pyval :=
  List.flat_map filter_params filters.

(** The number of placeholders the specification counts: one per
    filter that is not an [in], the length of each [in] list, one for a
    limit and one for a non-zero offset. *)
Definition filter_placeholders (filters : list filter) : nat :=
  List.length (List.filter (fun f => negb (is_in f)) filters)
  + list_sum (List.map (fun f => List.length (in_values (filter_value f)))
                (List.filter is_in filters)).

Definition expected_placeholders
  (filters : option (list filter)) (limit : option Z) (offset : Z) : nat :=
  filter_placeholders (items filters)
  + List.length (limit_params limit)
  + List.length (offset_params offset).

(** Identifier positions as the claim about rejection lists them: a
    selected, group-by, filter, order-by or aggregate column, or an
    aggregate alias, given as a string the whitelist pattern does not
    match in full. *)
Definition off_pattern (v : pyval) : bool :=
  match v with
  | VStr s => negb (identifier_fullmatch s)
  | _ => false
  end.

Definition names_off_pattern
  (selected_columns : option (list string))
  (filters : option (list filter))
  (group_by : option (list string))
  (order_by : option (list ordering))
  (aggregates : option (list aggregate)) : bool :=
  existsb (fun c => negb (identifier_fullmatch c)) (items selected_columns)
  || existsb (fun c => negb (identifier_fullmatch c)) (items group_by)
  || existsb (fun f => off_pattern (filter_column f)) (items filters)
  || existsb (fun o => off_pattern (order_column o)) (items order_by)
  || existsb (fun a => off_pattern (agg_column a) || off_pattern (agg_alias a))
       (items aggregates).

(** The same positions as the builder guards them: a string the
    validator refuses; aggregates count under a group-by only, and an
    empty alias counts as no alias. *)
Definition refused (v : pyval) : bool :=
  match v with
  | VStr s => negb (_validate_identifier s)
  | _ => false
  end.

Definition names_refused
  (selected_columns : option (list string))
  (filters : option (list filter))
  (group_by : option (list string))
  (order_by : option (list ordering))
  (aggregates : option (list aggregate)) : bool :=
  existsb (fun c => negb (_validate_identifier c)) (items selected_columns)
  || existsb (fun c => negb (_validate_identifier c)) (items group_by)
  || existsb (fun f => refused (filter_column f)) (items filters)
  || existsb (fun o => refused (order_column o)) (items order_by)
  || (given group_by
      && existsb (fun a => refused (agg_column a)
                           || (truthy (agg_alias a) && refused (agg_alias a)))
           (items aggregates)).

(** Identifier positions that hold a string or a falsy value: the
    requests on which [re.match] is never handed anything else. *)
Definition textual (v : pyval) : bool :=
  match v with
  | VStr _ => true
  | _ => negb (truthy v)
  end.

Definition textual_request
  (filters : option (list filter))
  (order_by : option (list ordering))
  (aggregates : option (list aggregate)) : bool :=
  forallb (fun f => textual (filter_column f)) (items filters)
  && forallb (fun o => textual (order_column o)) (items order_by)
  && forallb (fun a => textual (agg_column a) && textual (agg_alias a))
       (items aggregates).

(** What [_build_query] yields for a request, read off its first
    fault. *)
Definition expected_outcome
  (table_expr : string)
  (selected_columns : option (list string))
  (filters : option (list filter))
  (group_by : option (list string))
  (order_by : option (list ordering))
  (limit : option Z) (offset : Z)
  (aggregates : option (list aggregate)) : outcome built :=
  match query_fault selected_columns filters group_by order_by aggregates with
  | Some (Rejected text) => Value (None, ErrorDict text)
  | Some (Crashed v) => Throw (TypeError v)
  | None =>
      Value (Some (body_text table_expr selected_columns filters group_by
                     order_by aggregates
                   ++ limit_clause limit ++ offset_clause offset),
             Params (filter_values (items filters)
                       ++ limit_params limit ++ offset_params offset)%list)
  end.

(** A joined list around one of its entries. *)
Definition lead_in (separator : string) (parts : list string) : string :=
  match parts with
  | [] => ""
  | _ :: _ => join separator parts ++ separator
  end.

Definition trail (separator : string) (parts : list string) : string :=
  match parts with
  | [] => ""
  | _ :: _ => separator ++ join separator parts
  end.

(** A fault as the control flow it causes. *)
Definition flow_of_fault {A} (f : fault) : flow built A :=
  match f with
  | Rejected text => Return_ (None, ErrorDict text)
  | Crashed v => Raise (TypeError v)
  end.

End Contract.

Import Contract.

(** ** Sample requests *)

Definition abc_newline : string := "abc" ++ String newline "".

Definition injected : string := "age; DROP TABLE x".

Definition injected_aggregate : aggregate :=
  Aggregate (VStr injected) (Some (VStr "count")) VNone.

Definition numeric_column_filter : filter :=
  Filter (VInt 5) (Some (VStr "=")) (VInt 1).

Definition injected_filter : filter :=
  Filter (VStr injected) (Some (VStr "=")) (VInt 1).

Definition unsupported_filter : filter :=
  Filter (VStr "age") (Some (VStr "LIKES")) (VInt 1).

Definition count_id : aggregate :=
  Aggregate (VStr "id") (Some (VStr "count")) (VStr "count_id").

Definition age_desc : ordering := Ordering (VStr "age") (Some (VStr "desc")).

(** A workspace that holds no file at all. *)
Definition empty_workspace : world :=
  World true true
    (fun path _ _ _ => Value ("/workspaces/" ++ path))
    (fun _ => false)
    (fun _ => "/workspaces")
    (fun _ => Value tt)
    (fun _ => Throw (External "No such file or directory"))
    (fun rows _ => Value (List.length rows))
    (fun _ _ => Throw (External "IO Error: No files found"))
    (fun _ => "error").

Definition age_filter : filter :=
  Filter (VStr "age") (Some (VStr ">")) (VInt 30).
Definition in_filter : filter :=
  Filter (VStr "id") (Some (VStr "IN")) (VList [VInt 1; VInt 2; VInt 3]).

(** Characters that end a statement, open a string or start a comment
    in SQL. *)
Definition sql_metachars : list ascii :=
  [";"; "'"; dquote; "\"; "-"; "/"; "#"]%char.

(** Two filters that differ in their values at most: the same column
    and operator and, for [in], as many elements. *)
Definition same_shape (f g : filter) : Prop :=
  filter_column f = filter_column g
  /\ filter_op f = filter_op g
  /\ (is_in f = true ->
      List.length (in_values (filter_value f))
      = List.length (in_values (filter_value g))).

(** A body that has not raised. *)
Definition settled {R A} (x : flow R A * list event) : Prop :=
  match fst x with
  | Raise _ => False
  | _ => True
  end.

Definition people : table :=
  Table ["id"; "name"; "age"]
    [[VInt 1; VStr "Alice"; VInt 30];
     [VInt 2; VStr "Bob"; VInt 25];
     [VInt 3; VStr "Charlie"; VInt 35]].

Definition people_schema : table :=
  Table ["column_name"; "column_type"]
    [[VStr "id"; VStr "INTEGER"];
     [VStr "name"; VStr "VARCHAR"];
     [VStr "age"; VStr "INTEGER"]].

(** A workspace where every path is a file of three people. *)
Definition stocked_workspace : world :=
  World true true
    (fun path _ _ _ => Value ("/workspaces/" ++ path))
    (fun _ => true)
    (fun _ => "/workspaces")
    (fun _ => Value tt)
    (fun _ => Value 1024%Z)
    (fun rows _ => Value (List.length rows))
    (fun statement _ =>
       if String.eqb statement count_statement
       then Value (Table ["count_star()"] [[VInt 3]])
       else if String.eqb statement describe_statement
            then Value people_schema
            else Value people)
    (fun _ => "error").

(** An interpreter without the engine module and without pandas. *)
Definition bare_interpreter : world :=
  World false false
    (fun path _ _ _ => Value ("/workspaces/" ++ path))
    (fun _ => true)
    (fun _ => "/workspaces")
    (fun _ => Value tt)
    (fun _ => Value 1024%Z)
    (fun rows _ => Value (List.length rows))
    (fun _ _ => Value people)
    (fun _ => "No module named 'pandas'").

(** A workspace whose resolver lets no path through. *)
Definition sealed_workspace : world :=
  World true true
    (fun _ _ _ _ => Throw (External "Access denied: path traversal"))
    (fun _ => true)
    (fun _ => "/workspaces")
    (fun _ => Value tt)
    (fun _ => Value 1024%Z)
    (fun rows _ => Value (List.length rows))
    (fun _ _ => Value people)
    (fun e => match e with External text => text | _ => "error" end).

(** What [parquet_read] answers when the builder finds a fault. *)
Definition fault_response (w : world) (f : fault) : response :=
  match f with
  | Rejected text => Error text
  | Crashed v => Error ("Failed to read parquet: " ++ exc_text w (TypeError v))
  end.

(** The steps every tool takes before it looks at the file. *)
Definition opening (path workspace_id agent_id session_id : string)
  : list event :=
  [Import "duckdb"; ResolvePath path workspace_id agent_id session_id].

(** A workspace whose files the engine cannot read. *)
Definition corrupt_workspace : world :=
  World true true
    (fun path _ _ _ => Value ("/workspaces/" ++ path))
    (fun _ => true)
    (fun _ => "")
    (fun _ => Value tt)
    (fun _ => Value 12%Z)
    (fun rows _ => Value (List.length rows))
    (fun _ _ => Throw (External "Invalid Input Error: no magic bytes"))
    (fun e => match e with External text => text | _ => "error" end).

(** [bool(row)] for a row tuple *)
Definition has_cell (row : list pyval) : bool :=
  match row with
  | [] => false
  | _ :: _ => true
  end.

(** The steps of [parquet_write] once the path is resolved and the
    parent directory seen to. *)
Definition copying (rows : list record) (columns : list string)
  (secure_path : string) : list event :=
  [DataFrame rows columns; Connect; Register "data_df";
   Execute copy_statement [VStr secure_path]].


Definition two_people : list record :=
  [[("id", VInt 1); ("name", VStr "Alice")];
   [("id", VInt 2); ("name", VStr "Bob")]].

Definition name_like : filter :=
  Filter (VStr "name") (Some (VStr "LIKE")) (VStr "A%").

Definition keyless_filter : filter := Filter VNone None VNone.

Definition median_id : aggregate :=
  Aggregate (VStr "id") (Some (VStr "median")) VNone.

Definition name_default : ordering := Ordering (VStr "name") None.

Definition age_sideways : ordering :=
  Ordering (VStr "age") (Some (VStr "sideways")).

Example build_filters :
  _build_query "read_parquet(?)" None (Some [age_filter; in_filter]) None None
    (Some 10%Z) 5%Z None
  = Value (Some "SELECT * FROM read_parquet(?) WHERE age > ? AND id IN (?, ?, ?) LIMIT ? OFFSET ?",
           Params [VInt 30; VInt 1; VInt 2; VInt 3; VInt 10; VInt 5]).
Proof. reflexivity. Qed.

Example build_group :
  _build_query "t" None None (Some ["age"])
    (Some [Ordering (VStr "age") (Some (VStr "desc"))]) None 0%Z
    (Some [Aggregate (VStr "id") (Some (VStr "count")) (VStr "count_id")])
  = Value (Some "SELECT age, count(id) AS count_id FROM t GROUP BY age ORDER BY age DESC",
           Params []).
Proof. reflexivity. Qed.

Example validate_plain : _validate_identifier "count_id" = true.
Proof. reflexivity. Qed.

Example validate_injection : _validate_identifier injected = false.
Proof. reflexivity. Qed.

Example build_unsupported :
  _build_query "t" None (Some [unsupported_filter]) None None None 0%Z None
  = Value (None, ErrorDict "Unsupported operator: likes").
Proof. reflexivity. Qed.

Example build_missing_column :
  _build_query "t" None (Some [Filter VNone None VNone]) None None None 0%Z None
  = Value (None, ErrorDict "Invalid column name: None").
Proof. reflexivity. Qed.

Example str_zero : str (VInt 0) = "0".
Proof. reflexivity. Qed.

Example repr_list :
  str (VList [VInt (-5); VStr "a'b"; VNone; VBool true]) = "[-5, " ++ String dquote ("a'b" ++ String dquote ", None, True]").
Proof. reflexivity. Qed.

(** ** Facts about strings *)

Section StringFacts.

Lemma append_nil_r (s : string) : s ++ "" = s.
Proof. induction s as [|c s IH]; simpl; [reflexivity | now rewrite IH]. Qed.

Lemma append_assoc (a b c : string) : (a ++ b) ++ c = a ++ b ++ c.
Proof. induction a as [|x a IH]; simpl; [reflexivity | now rewrite IH]. Qed.

Lemma count_append (c : ascii) (a b : string) :
  count c (a ++ b) = count c a + count c b.
Proof.
  induction a as [|x a IH]; simpl; [reflexivity|].
  rewrite IH. lia.
Qed.

Lemma count_join (c : ascii) (sep : string) (parts : list string) :
  count c sep = 0 ->
  count c (join sep parts) = list_sum (List.map (count c) parts).
Proof.
  intros Hsep. unfold join.
  induction parts as [|x [|y rest] IH]; simpl.
  - reflexivity.
  - lia.
  - rewrite !count_append, Hsep. simpl in IH. rewrite IH. lia.
Qed.

Lemma count_all_chars (cls : ascii -> bool) (c : ascii) (s : string) :
  cls c = false -> all_chars cls s = true -> count c s = 0.
Proof.
  intros Hc. induction s as [|d s IH]; simpl; [reflexivity|].
  intros H. apply andb_prop in H. destruct H as [Hd Hs].
  destruct (Ascii.eqb_spec d c) as [->|_]; [congruence | auto].
Qed.

Lemma all_chars_weaken (p q : ascii -> bool) (s : string) :
  (forall c, p c = true -> q c = true) ->
  all_chars p s = true -> all_chars q s = true.
Proof.
  intros Hpq. induction s as [|d s IH]; simpl; [reflexivity|].
  intros H. apply andb_prop in H. destruct H as [Hd Hs].
  now rewrite (Hpq _ Hd), IH.
Qed.

Lemma all_chars_append (p : ascii -> bool) (a b : string) :
  all_chars p (a ++ b) = all_chars p a && all_chars p b.
Proof.
  induction a as [|x a IH]; simpl; [reflexivity|].
  now rewrite IH, andb_assoc.
Qed.

Lemma strip_newline_sound (s p : string) :
  strip_newline s = Some p -> s = p ++ String newline "".
Proof.
  revert p. induction s as [|c s IH]; intros p; simpl; [discriminate|].
  destruct s as [|d s'].
  - destruct (Nat.eqb_spec (code c) 10) as [Hc|Hc]; [|discriminate].
    intros [= <-]. simpl. f_equal.
    unfold code in Hc. rewrite <- (ascii_nat_embedding c), Hc. reflexivity.
  - destruct (strip_newline (String d s')) as [q|] eqn:Hq; simpl; [|discriminate].
    intros [= <-]. simpl. f_equal. now apply IH.
Qed.

Lemma strip_newline_complete (p : string) :
  strip_newline (p ++ String newline "") = Some p.
Proof.
  induction p as [|c p IH]; [reflexivity|].
  change (strip_newline (String c (p ++ String newline "")) = Some (String c p)).
  simpl. rewrite IH.
  destruct (p ++ String newline "") eqn:E; [|reflexivity].
  destruct p; discriminate.
Qed.

Lemma length_append (a b : string) :
  String.length (a ++ b) = String.length a + String.length b.
Proof. induction a as [|c a IH]; simpl; [reflexivity | now rewrite IH]. Qed.

Lemma substring_skip (a b : string) (n : nat) :
  substring (String.length a) n (a ++ b) = substring 0 n b.
Proof. induction a as [|c a IH]; simpl; [reflexivity | exact IH]. Qed.

Lemma substring_whole (s : string) : substring 0 (String.length s) s = s.
Proof. induction s as [|c s IH]; simpl; [reflexivity | now rewrite IH]. Qed.

Lemma substring_split (s : string) (k : nat) :
  k <= String.length s ->
  s = substring 0 k s ++ substring k (String.length s - k) s.
Proof.
  revert k. induction s as [|c s IH]; intros k Hk.
  - destruct k; reflexivity.
  - destruct k as [|k].
    + simpl. now rewrite substring_whole.
    + simpl in Hk. simpl. f_equal. apply IH. lia.
Qed.

(** [endswith] holds exactly of the texts that are a stem followed by
    the suffix. *)
Lemma endswith_iff (s suffix : string) :
  endswith s suffix = true <-> exists stem, s = stem ++ suffix.
Proof.
  unfold endswith. split.
  - intros H. apply andb_prop in H. destruct H as [Hlen Heq].
    apply Nat.leb_le in Hlen. apply String.eqb_eq in Heq.
    exists (substring 0 (String.length s - String.length suffix) s).
    assert (Hk : String.length s - String.length suffix <= String.length s)
      by lia.
    pose proof (substring_split s _ Hk) as Hsplit.
    replace (String.length s - (String.length s - String.length suffix))
      with (String.length suffix) in Hsplit by lia.
    now rewrite Heq in Hsplit.
  - intros [stem ->]. rewrite length_append.
    replace (String.length stem + String.length suffix - String.length suffix)
      with (String.length stem) by lia.
    rewrite substring_skip, substring_whole, String.eqb_refl.
    rewrite andb_true_r. apply Nat.leb_le. lia.
Qed.

Lemma lower_append (a b : string) : lower (a ++ b) = lower a ++ lower b.
Proof. induction a as [|c a IH]; simpl; [reflexivity | now rewrite IH]. Qed.

Lemma lower_split (s a b : string) :
  lower s = a ++ b ->
  exists s1 s2, s = s1 ++ s2 /\ lower s1 = a /\ lower s2 = b.
Proof.
  revert s. induction a as [|c a IH]; intros s H.
  - exists "", s. auto.
  - destruct s as [|d s]; [discriminate|].
    simpl in H. injection H as Hc Hs.
    destruct (IH s Hs) as [s1 [s2 [-> [H1 H2]]]].
    exists (String d s1), s2. simpl. now rewrite Hc, H1.
Qed.

(** The extension test of the three tools: the path is a stem followed
    by an extension that reads [.parquet] once lower-cased. *)
Lemma parquet_extension_iff (path : string) :
  endswith (lower path) ".parquet" = true
  <-> exists stem extension,
      path = stem ++ extension /\ lower extension = ".parquet".
Proof.
  rewrite endswith_iff. split.
  - intros [stem H]. apply lower_split in H.
    destruct H as [s1 [s2 [-> [_ H2]]]]. now exists s1, s2.
  - intros [stem [extension [-> H]]].
    exists (lower stem). now rewrite lower_append, H.
Qed.

End StringFacts.

(** ** The identifier whitelist *)

Section Whitelist.

(** A starred class followed by [$]: the class all the way, or the
    class up to a final newline. *)
Lemma star_then_eol (cls : ascii -> bool) (start : bool) (text : string) :
  Re.match_here [Re.Star cls; Re.Eol] start text
  = all_chars cls text
    || match strip_newline text with
       | Some p => all_chars cls p
       | None => false
       end.
Proof.
  revert start. induction text as [|c rest IH]; intros start.
  - reflexivity.
  - change (Re.match_here [Re.Star cls; Re.Eol] start (String c rest))
      with ((cls c && Re.match_here [Re.Star cls; Re.Eol] false rest)
            || (Re.at_eol (String c rest) && true)).
    rewrite IH. destruct rest as [|d rest'].
    + simpl. destruct (cls c), (code c =? 10)%nat; reflexivity.
    + change (Re.at_eol (String c (String d rest'))) with false.
      change (strip_newline (String c (String d rest')))
        with (option_map (String c) (strip_newline (String d rest'))).
      destruct (strip_newline (String d rest')) as [p|]; simpl;
        destruct (cls c); simpl;
        rewrite ?orb_false_r, ?andb_false_r; reflexivity.
Qed.

(** What the validator accepts: a full match, or a full match followed
    by one newline. *)
Lemma validate_identifier_spec (name : string) :
  _validate_identifier name
  = identifier_fullmatch name
    || match strip_newline name with
       | Some p => identifier_fullmatch p
       | None => false
       end.
Proof.
  destruct name as [|c rest]; [reflexivity|].
  change (_validate_identifier (String c rest))
    with (true && (head_class c
                   && Re.match_here [Re.Star body_class; Re.Eol] false rest)).
  rewrite star_then_eol. simpl andb at 1.
  destruct rest as [|d rest'].
  - simpl. destruct (head_class c), (code c =? 10)%nat; reflexivity.
  - change (strip_newline (String c (String d rest')))
      with (option_map (String c) (strip_newline (String d rest'))).
    destruct (strip_newline (String d rest')) as [p|]; simpl;
      destruct (head_class c); simpl; rewrite ?orb_false_r; reflexivity.
Qed.

Lemma head_class_body (c : ascii) : head_class c = true -> body_class c = true.
Proof.
  unfold head_class, body_class.
  destruct (Re.letter c), (Re.underscore c), (Re.digit c); simpl; congruence.
Qed.

Lemma fullmatch_all_body (name : string) :
  identifier_fullmatch name = true -> all_chars body_class name = true.
Proof.
  destruct name as [|c rest]; simpl; [discriminate|].
  intros H. apply andb_prop in H. destruct H as [Hc Hr].
  now rewrite (head_class_body _ Hc), Hr.
Qed.

(** Every full match passes the validator. *)
Lemma validate_fullmatch (name : string) :
  identifier_fullmatch name = true -> _validate_identifier name = true.
Proof. intros H. now rewrite validate_identifier_spec, H. Qed.

(** A validated name is made of whitelisted characters, but for a
    final newline. *)
Lemma validate_chars (name : string) :
  _validate_identifier name = true -> all_chars body_or_newline name = true.
Proof.
  rewrite validate_identifier_spec. intros H.
  apply orb_prop in H. destruct H as [H|H].
  - apply fullmatch_all_body in H.
    revert H. apply all_chars_weaken. intros c Hc.
    unfold body_or_newline. now rewrite Hc.
  - destruct (strip_newline name) as [p|] eqn:Hp; [|discriminate].
    apply strip_newline_sound in Hp. subst name.
    rewrite all_chars_append. apply fullmatch_all_body in H.
    rewrite (all_chars_weaken body_class body_or_newline p); [reflexivity| |exact H].
    intros c Hc. unfold body_or_newline. now rewrite Hc.
Qed.

Lemma validate_contains (name : string) (c : ascii) :
  _validate_identifier name = true -> contains c name = true ->
  body_or_newline c = true.
Proof.
  intros H. apply validate_chars in H. revert H.
  induction name as [|d rest IH]; simpl; [discriminate|].
  intros H Hc. apply andb_prop in H. destruct H as [Hd Hr].
  apply orb_prop in Hc. destruct Hc as [Hc|Hc]; [|auto].
  apply Ascii.eqb_eq in Hc. now subst.
Qed.

(** A validated name holds no placeholder. *)
Lemma validate_no_placeholder (name : string) :
  _validate_identifier name = true -> count "?" name = 0.
Proof.
  intros H. apply (count_all_chars body_or_newline); [reflexivity|].
  now apply validate_chars.
Qed.

(** A name holding a space, a semicolon or a quote is refused. *)
Lemma validate_rejects_punctuation (name : string) (c : ascii) :
  In c [" "; ";"; "'"; dquote]%char -> contains c name = true ->
  _validate_identifier name = false.
Proof.
  intros Hin Hc.
  destruct (_validate_identifier name) eqn:Hv; [|reflexivity].
  pose proof (validate_contains name c Hv Hc) as Hb.
  simpl in Hin.
  destruct Hin as [<-|[<-|[<-|[<-|[]]]]]; discriminate Hb.
Qed.

(** A name that starts with a digit is refused. *)
Lemma validate_rejects_leading_digit (c : ascii) (rest : string) :
  Re.digit c = true -> _validate_identifier (String c rest) = false.
Proof.
  intros Hd.
  change (_validate_identifier (String c rest))
    with (true && (head_class c
                   && Re.match_here [Re.Star body_class; Re.Eol] false rest)).
  assert (head_class c = false) as ->; [|reflexivity].
  unfold head_class, Re.letter, Re.underscore, Re.digit, in_range in *.
  apply andb_prop in Hd. destruct Hd as [H1 H2].
  apply Nat.leb_le in H1. apply Nat.leb_le in H2.
  repeat match goal with
         | |- context [(?a <=? ?b)%nat] => destruct (Nat.leb_spec a b)
         | |- context [(?a =? ?b)%nat] => destruct (Nat.eqb_spec a b)
         end; simpl; try reflexivity; lia.
Qed.

End Whitelist.

(** ** The loops of [_build_query] *)

Section Loops.

Local Arguments member : simpl never.
Local Arguments String.append : simpl never.

(** The column guard at the head of each loop body. *)
Lemma column_guard {A} (column : pyval) (k : flow built A) :
  (bad <- column_rejected column ;;
   if bad then Return_ (None, _error_invalid_identifier (str column)) else k)
  = match column_fault column with
    | Some f => flow_of_fault f
    | None => k
    end.
Proof.
  unfold column_rejected, column_fault, text_fault, name_fault.
  destruct (truthy column) eqn:Ht; simpl; [|reflexivity].
  destruct column; simpl; try reflexivity.
  destruct (_validate_identifier s); reflexivity.
Qed.

Lemma check_columns_spec (cols : list string) :
  check_columns cols
  = match first_fault name_fault cols with
    | Some f => flow_of_fault f
    | None => Next tt
    end.
Proof.
  induction cols as [|col rest IH]; simpl; [reflexivity|].
  unfold name_fault at 1.
  destruct (_validate_identifier col); simpl; [exact IH | reflexivity].
Qed.

Lemma aggregates_loop_spec (aggs : list aggregate) (select_parts : list string) :
  aggregates_loop aggs select_parts
  = match first_fault aggregate_fault aggs with
    | Some f => flow_of_fault f
    | None => Next (select_parts ++ List.map render_aggregate aggs)%list
    end.
Proof.
  revert select_parts.
  induction aggs as [|agg rest IH]; intros select_parts; simpl.
  - now rewrite app_nil_r.
  - rewrite column_guard. unfold aggregate_fault at 1.
    destruct (column_fault (agg_column agg)) as [f|]; [reflexivity|].
    fold (agg_func agg).
    destruct (member (agg_func agg) ALLOWED_AGGREGATES); simpl; [|reflexivity].
    unfold render_aggregate.
    destruct (truthy (agg_alias agg)) eqn:Ht.
    + destruct (agg_alias agg) as [| | |s|]; simpl; try reflexivity.
      unfold name_fault. destruct (_validate_identifier s); simpl; [|reflexivity].
      rewrite IH. unfold append. now rewrite <- app_assoc.
    + simpl. rewrite IH. unfold append. now rewrite <- app_assoc.
Qed.

Lemma filters_loop_spec (conds : list filter)
  (where_parts : list string) (params : list pyval) :
  filters_loop conds where_parts params
  = match first_fault filter_fault conds with
    | Some f => flow_of_fault f
    | None => Next ((where_parts ++ List.map render_filter conds)%list,
                    (params ++ filter_values conds)%list)
    end.
Proof.
  revert where_parts params.
  induction conds as [|condition rest IH]; intros where_parts params; simpl.
  - now rewrite !app_nil_r.
  - rewrite column_guard. unfold filter_fault at 1.
    destruct (column_fault (filter_column condition)) as [f|]; [reflexivity|].
    fold (filter_operator condition).
    destruct (member (filter_operator condition) ALLOWED_OPERATORS);
      simpl; [|reflexivity].
    unfold render_filter, filter_params, is_in.
    destruct (String.eqb (filter_operator condition) "in") eqn:Hin.
    + destruct (filter_value condition) as [| | | |[|v vs]]; simpl; try reflexivity.
      rewrite IH. unfold append, extend. simpl.
      now rewrite <- !app_assoc.
    + rewrite IH. unfold append. simpl. now rewrite <- !app_assoc.
Qed.

Lemma order_loop_spec (entries : list ordering) (order_parts : list string) :
  order_loop entries order_parts
  = match first_fault order_fault entries with
    | Some f => flow_of_fault f
    | None => Next (order_parts ++ List.map render_order entries)%list
    end.
Proof.
  revert order_parts.
  induction entries as [|entry rest IH]; intros order_parts; simpl.
  - now rewrite app_nil_r.
  - rewrite column_guard. unfold order_fault at 1.
    destruct (column_fault (order_column entry)) as [f|]; [reflexivity|].
    fold (order_dir entry).
    destruct (member (order_dir entry) ALLOWED_ORDER); simpl; [|reflexivity].
    rewrite IH. unfold append, render_order. now rewrite <- app_assoc.
Qed.

End Loops.

(** ** [_build_query] against its first fault *)

Lemma append_nil_l (s : string) : "" ++ s = s.
Proof. reflexivity. Qed.

Create Rewrite HintDb text.
#[local] Hint Rewrite append_assoc append_nil_r append_nil_l : text.
#[local] Hint Rewrite <- app_assoc : text.
#[local] Hint Rewrite app_nil_r : text.

Section Builder.

Local Arguments String.append : simpl never.

Lemma given_false_items {A} (xs : option (list A)) :
  given xs = false -> items xs = [].
Proof. destruct xs as [[|x l]|]; simpl; congruence. Qed.

Lemma assemble_spec (table_expr : string) (select_parts where_parts : list string)
  (group_by : option (list string)) (order_parts : list string)
  (limit : option Z) (offset : Z) (params : list pyval) :
  assemble table_expr select_parts where_parts group_by order_parts
    limit offset params
  = (Some (select_from table_expr select_parts
           ++ clause " WHERE " " AND " where_parts
           ++ group_clause group_by
           ++ clause " ORDER BY " ", " order_parts
           ++ limit_clause limit ++ offset_clause offset),
     Params (params ++ limit_params limit ++ offset_params offset)%list).
Proof.
  unfold assemble, select_from, group_clause, clause, limit_clause,
    offset_clause, limit_params, offset_params, append.
  destruct where_parts, group_by as [[|g gs]|], order_parts, limit,
    (Z.eqb offset 0); simpl;
    autorewrite with text; reflexivity.
Qed.

(** The builder's outcome on every request. *)
Lemma build_query_spec
  (table_expr : string)
  (selected_columns : option (list string))
  (filters : option (list filter))
  (group_by : option (list string))
  (order_by : option (list ordering))
  (limit : option Z) (offset : Z)
  (aggregates : option (list aggregate)) :
  _build_query table_expr selected_columns filters group_by order_by
    limit offset aggregates
  = expected_outcome table_expr selected_columns filters group_by order_by
      limit offset aggregates.
Proof.
  unfold _build_query, build_body, expected_outcome, query_fault,
    projection_fault, body_text, projection, where_clause, order_clause.
  assert (Hsel : (if given selected_columns
                  then check_columns (items selected_columns) else Next tt)
                 = check_columns (items selected_columns)).
  { destruct (given selected_columns) eqn:E; [reflexivity|].
    now rewrite (given_false_items _ E). }
  assert (Hgb : (if given group_by
                 then check_columns (items group_by) else Next tt)
                = check_columns (items group_by)).
  { destruct (given group_by) eqn:E; [reflexivity|].
    now rewrite (given_false_items _ E). }
  assert (Hfl : (if given filters then filters_loop (items filters) [] []
                 else Next ([], []))
                = filters_loop (items filters) [] []).
  { destruct (given filters) eqn:E; [reflexivity|].
    now rewrite (given_false_items _ E). }
  assert (Hob : (if given order_by then order_loop (items order_by) []
                 else Next [])
                = order_loop (items order_by) []).
  { destruct (given order_by) eqn:E; [reflexivity|].
    now rewrite (given_false_items _ E). }
  assert (Hag : (if given aggregates
                 then aggregates_loop (items aggregates) (extend [] (items group_by))
                 else Next (items group_by))
                = aggregates_loop (items aggregates) (items group_by)).
  { destruct (given aggregates) eqn:E; [reflexivity|].
    now rewrite (given_false_items _ E). }
  rewrite Hsel, Hgb, Hfl, Hob, Hag. clear Hsel Hgb Hfl Hob Hag.
  rewrite !check_columns_spec, aggregates_loop_spec, filters_loop_spec,
    order_loop_spec.
  destruct (first_fault name_fault (items selected_columns)) as [[text|v]|];
    [reflexivity | reflexivity |].
  destruct (first_fault name_fault (items group_by)) as [[text|v]|];
    [reflexivity | reflexivity |].
  cbn [bind or_else].
  destruct (given group_by) eqn:Hg.
  - destruct (first_fault aggregate_fault (items aggregates)) as [[text|v]|];
      [reflexivity | reflexivity |].
    cbn [bind or_else flow_of_fault].
    destruct (first_fault filter_fault (items filters)) as [[text|v]|];
      [reflexivity | reflexivity |].
    cbn [bind or_else flow_of_fault].
    destruct (first_fault order_fault (items order_by)) as [[text|v]|];
      [reflexivity | reflexivity |].
    cbn [bind or_else flow_of_fault run].
    rewrite assemble_spec. cbn [app].
    autorewrite with text. reflexivity.
  - assert (Hp : (if given selected_columns
                  then Next (items selected_columns) else Next ["*"])
                 = Next (R:=built)
                     (if given selected_columns
                      then items selected_columns else ["*"])).
    { destruct (given selected_columns); reflexivity. }
    rewrite Hp. clear Hp. cbn [bind or_else flow_of_fault].
    destruct (first_fault filter_fault (items filters)) as [[text|v]|];
      [reflexivity | reflexivity |].
    cbn [bind or_else flow_of_fault].
    destruct (first_fault order_fault (items order_by)) as [[text|v]|];
      [reflexivity | reflexivity |].
    cbn [bind or_else flow_of_fault run].
    rewrite assemble_spec. cbn [app].
    autorewrite with text. reflexivity.
Qed.

End Builder.

(** ** Faults: where they come from, and what they exclude *)

Section Faults.

Local Arguments String.append : simpl never.
Local Arguments member : simpl never.

Lemma or_else_left (a b : option fault) : a <> None -> or_else a b <> None.
Proof. destruct a; simpl; congruence. Qed.

Lemma or_else_right (a b : option fault) : b <> None -> or_else a b <> None.
Proof. destruct a; simpl; congruence. Qed.

Lemma or_else_none (a b : option fault) :
  or_else a b = None -> a = None /\ b = None.
Proof. destruct a; simpl; [discriminate | auto]. Qed.

Lemma first_fault_some {A} (fault_of : A -> option fault) (bad : A -> bool)
  (l : list A) :
  (forall x, bad x = true -> fault_of x <> None) ->
  existsb bad l = true -> first_fault fault_of l <> None.
Proof.
  intros Hbad. induction l as [|x rest IH]; simpl; [discriminate|].
  intros H. apply orb_prop in H.
  destruct (fault_of x) eqn:Hx; [discriminate|].
  destruct H as [H|H]; [|auto].
  exfalso. exact (Hbad x H Hx).
Qed.

Lemma first_fault_none {A} (fault_of : A -> option fault) (l : list A) :
  first_fault fault_of l = None -> Forall (fun x => fault_of x = None) l.
Proof.
  induction l as [|x rest IH]; simpl; [constructor|].
  destruct (fault_of x) eqn:Hx; [discriminate|].
  intros H. constructor; auto.
Qed.

Lemma first_fault_app {A} (fault_of : A -> option fault) (l m : list A) :
  first_fault fault_of (l ++ m)
  = or_else (first_fault fault_of l) (first_fault fault_of m).
Proof.
  induction l as [|x rest IH]; simpl; [reflexivity|].
  destruct (fault_of x); [reflexivity | exact IH].
Qed.

Lemma first_fault_no_crash {A} (fault_of : A -> option fault)
  (calm : A -> bool) (l : list A) (v : pyval) :
  (forall x, calm x = true -> fault_of x <> Some (Crashed v)) ->
  forallb calm l = true -> first_fault fault_of l <> Some (Crashed v).
Proof.
  intros Hcalm. induction l as [|x rest IH]; simpl; [discriminate|].
  intros H. apply andb_prop in H. destruct H as [Hx Hr].
  specialize (Hcalm x Hx).
  destruct (fault_of x); [congruence | auto].
Qed.

Lemma name_fault_refused (name : string) :
  _validate_identifier name = false -> name_fault name <> None.
Proof. unfold name_fault. intros ->. discriminate. Qed.

Lemma name_fault_calm (name : string) (v : pyval) :
  name_fault name <> Some (Crashed v).
Proof. unfold name_fault. destruct (_validate_identifier name); discriminate. Qed.

Lemma column_fault_refused (column : pyval) :
  refused column = true -> column_fault column <> None.
Proof.
  destruct column as [| | |s|]; simpl; try discriminate.
  unfold column_fault, text_fault, name_fault.
  destruct (truthy (VStr s)); [|discriminate].
  destruct (_validate_identifier s); simpl; [discriminate | intros _; discriminate].
Qed.

Lemma column_fault_calm (column v : pyval) :
  textual column = true -> column_fault column <> Some (Crashed v).
Proof.
  unfold column_fault, text_fault. destruct column as [| | |s|]; simpl.
  - discriminate.
  - destruct b; discriminate.
  - destruct (Z.eqb z 0); discriminate.
  - intros _. destruct (negb (String.eqb s "")); [apply name_fault_calm | discriminate].
  - destruct l; discriminate.
Qed.

(** A column without fault is a validated, non-empty string. *)
Lemma column_fault_passes (column : pyval) :
  column_fault column = None ->
  exists name, column = VStr name /\ _validate_identifier name = true.
Proof.
  unfold column_fault, text_fault, name_fault.
  destruct (truthy column); [|discriminate].
  destruct column as [| | |s|]; try discriminate.
  destruct (_validate_identifier s) eqn:Hs; [|discriminate].
  intros _. now exists s.
Qed.

Lemma text_fault_calm (x v : pyval) :
  textual x = true -> truthy x = true -> text_fault x <> Some (Crashed v).
Proof.
  unfold text_fault. destruct x as [| | |s|]; simpl; try congruence.
  - destruct b; discriminate.
  - destruct (Z.eqb z 0); discriminate.
  - intros _ _. apply name_fault_calm.
  - destruct l; discriminate.
Qed.

Lemma aggregate_fault_refused (a : aggregate) :
  refused (agg_column a) || (truthy (agg_alias a) && refused (agg_alias a)) = true ->
  aggregate_fault a <> None.
Proof.
  intros H. unfold aggregate_fault.
  destruct (column_fault (agg_column a)) eqn:Hc; [discriminate|].
  apply orb_prop in H. destruct H as [H|H].
  - exfalso. exact (column_fault_refused _ H Hc).
  - apply andb_prop in H. destruct H as [Ht Hr].
    destruct (member (agg_func a) ALLOWED_AGGREGATES); [|discriminate].
    rewrite Ht. destruct (agg_alias a) as [| | |s|]; try discriminate.
    simpl in Hr. apply name_fault_refused.
    now destruct (_validate_identifier s).
Qed.

Lemma aggregate_fault_calm (a : aggregate) (v : pyval) :
  textual (agg_column a) && textual (agg_alias a) = true ->
  aggregate_fault a <> Some (Crashed v).
Proof.
  intros H. apply andb_prop in H. destruct H as [Hc Ha].
  unfold aggregate_fault.
  pose proof (column_fault_calm (agg_column a) v Hc) as Hcalm.
  destruct (column_fault (agg_column a)); [congruence|].
  destruct (member (agg_func a) ALLOWED_AGGREGATES); [|discriminate].
  destruct (truthy (agg_alias a)) eqn:Ht; [|discriminate].
  now apply text_fault_calm.
Qed.

Lemma filter_fault_refused (f : filter) :
  refused (filter_column f) = true -> filter_fault f <> None.
Proof.
  intros H. unfold filter_fault.
  pose proof (column_fault_refused _ H).
  destruct (column_fault (filter_column f)); congruence.
Qed.

Lemma filter_fault_calm (f : filter) (v : pyval) :
  textual (filter_column f) = true -> filter_fault f <> Some (Crashed v).
Proof.
  intros H. unfold filter_fault.
  pose proof (column_fault_calm (filter_column f) v H) as Hcalm.
  destruct (column_fault (filter_column f)); [congruence|].
  destruct (member (filter_operator f) ALLOWED_OPERATORS); [|discriminate].
  destruct (is_in f); [|discriminate].
  destruct (in_values (filter_value f)); discriminate.
Qed.

Lemma order_fault_refused (o : ordering) :
  refused (order_column o) = true -> order_fault o <> None.
Proof.
  intros H. unfold order_fault.
  pose proof (column_fault_refused _ H).
  destruct (column_fault (order_column o)); congruence.
Qed.

Lemma order_fault_calm (o : ordering) (v : pyval) :
  textual (order_column o) = true -> order_fault o <> Some (Crashed v).
Proof.
  intros H. unfold order_fault.
  pose proof (column_fault_calm (order_column o) v H) as Hcalm.
  destruct (column_fault (order_column o)); [congruence|].
  destruct (member (order_dir o) ALLOWED_ORDER); discriminate.
Qed.

(** A refused identifier in a guarded position is a fault of the
    request. *)
Lemma names_refused_fault
  (selected_columns : option (list string))
  (filters : option (list filter))
  (group_by : option (list string))
  (order_by : option (list ordering))
  (aggregates : option (list aggregate)) :
  names_refused selected_columns filters group_by order_by aggregates = true ->
  query_fault selected_columns filters group_by order_by aggregates <> None.
Proof.
  unfold names_refused, query_fault, projection_fault. intros H.
  repeat (apply orb_prop in H; destruct H as [H|H]).
  - do 2 apply or_else_left.
    apply (first_fault_some _ _ _ (fun c Hc => name_fault_refused c
             (proj1 (negb_true_iff _) Hc)) H).
  - apply or_else_left, or_else_right, or_else_left.
    apply (first_fault_some _ _ _ (fun c Hc => name_fault_refused c
             (proj1 (negb_true_iff _) Hc)) H).
  - apply or_else_right, or_else_left.
    apply (first_fault_some _ _ _ (fun f Hf => filter_fault_refused f Hf) H).
  - do 2 apply or_else_right.
    apply (first_fault_some _ _ _ (fun o Ho => order_fault_refused o Ho) H).
  - apply andb_prop in H. destruct H as [Hg H]. rewrite Hg.
    apply or_else_left. do 2 apply or_else_right.
    apply (first_fault_some _ _ _ (fun a Ha => aggregate_fault_refused a Ha) H).
Qed.

(** On a textual request [re.match] is never handed a non-string. *)
Lemma textual_request_calm
  (selected_columns : option (list string))
  (filters : option (list filter))
  (group_by : option (list string))
  (order_by : option (list ordering))
  (aggregates : option (list aggregate)) (v : pyval) :
  textual_request filters order_by aggregates = true ->
  query_fault selected_columns filters group_by order_by aggregates
  <> Some (Crashed v).
Proof.
  unfold textual_request, query_fault, projection_fault. intros H.
  apply andb_prop in H. destruct H as [H Ha].
  apply andb_prop in H. destruct H as [Hf Ho].
  pose proof (first_fault_no_crash name_fault (fun _ => true)
                (items selected_columns) v
                (fun c _ => name_fault_calm c v)) as Hs.
  pose proof (first_fault_no_crash name_fault (fun _ => true)
                (items group_by) v
                (fun c _ => name_fault_calm c v)) as Hg.
  pose proof (first_fault_no_crash aggregate_fault _ (items aggregates) v
                (fun a Hc => aggregate_fault_calm a v Hc) Ha) as Hagg.
  pose proof (first_fault_no_crash filter_fault _ (items filters) v
                (fun f Hc => filter_fault_calm f v Hc) Hf) as Hfl.
  pose proof (first_fault_no_crash order_fault _ (items order_by) v
                (fun o Hc => order_fault_calm o v Hc) Ho) as Hob.
  assert (Htrue : forall A (l : list A), forallb (fun _ => true) l = true)
    by (intros A l; induction l; simpl; auto).
  specialize (Hs (Htrue _ _)). specialize (Hg (Htrue _ _)).
  destruct (first_fault name_fault (items selected_columns)); [exact Hs|].
  destruct (first_fault name_fault (items group_by)); [exact Hg|].
  simpl. destruct (given group_by).
  - destruct (first_fault aggregate_fault (items aggregates)); [exact Hagg|].
    simpl. destruct (first_fault filter_fault (items filters)); [exact Hfl|].
    exact Hob.
  - simpl. destruct (first_fault filter_fault (items filters)); [exact Hfl|].
    exact Hob.
Qed.

End Faults.

(** ** Counting placeholders *)

Section Placeholders.

Local Arguments String.append : simpl never.
Local Arguments member : simpl never.

Lemma member_In (x : string) (set : list string) :
  member x set = true -> In x set.
Proof.
  unfold member. intros H. apply existsb_exists in H.
  destruct H as [y [Hy Hxy]]. apply String.eqb_eq in Hxy. now subst.
Qed.

Lemma allowed_operator_plain (op : string) :
  member op ALLOWED_OPERATORS = true -> count "?" op = 0.
Proof.
  intros H. apply member_In in H. simpl in H.
  repeat (destruct H as [<-|H]; [reflexivity|]). destruct H.
Qed.

Lemma allowed_aggregate_plain (func : string) :
  member func ALLOWED_AGGREGATES = true -> count "?" func = 0.
Proof.
  intros H. apply member_In in H. simpl in H.
  repeat (destruct H as [<-|H]; [reflexivity|]). destruct H.
Qed.

Lemma allowed_order_upper (direction : string) :
  member direction ALLOWED_ORDER = true ->
  upper direction = "ASC" \/ upper direction = "DESC".
Proof.
  intros H. apply member_In in H. simpl in H.
  destruct H as [<-|[<-|[]]]; [left | right]; reflexivity.
Qed.

Lemma count_placeholders (n : nat) : count "?" (placeholders n) = n.
Proof.
  unfold placeholders. rewrite count_join by reflexivity.
  induction n as [|n IH]; simpl; [reflexivity | now rewrite IH].
Qed.

Lemma column_plain (column : pyval) :
  column_fault column = None -> count "?" (str column) = 0.
Proof.
  intros H. apply column_fault_passes in H. destruct H as [name [-> Hn]].
  now apply validate_no_placeholder.
Qed.

Lemma render_aggregate_plain (a : aggregate) :
  aggregate_fault a = None -> count "?" (render_aggregate a) = 0.
Proof.
  unfold aggregate_fault, render_aggregate.
  destruct (column_fault (agg_column a)) eqn:Hc; [discriminate|].
  destruct (member (agg_func a) ALLOWED_AGGREGATES) eqn:Hm; [|discriminate].
  apply column_plain in Hc. apply allowed_aggregate_plain in Hm.
  destruct (truthy (agg_alias a)) eqn:Ht; intros H.
  - destruct (agg_alias a) as [| | |s|]; try discriminate.
    unfold text_fault, name_fault in H.
    destruct (_validate_identifier s) eqn:Hs; [|discriminate].
    apply validate_no_placeholder in Hs.
    rewrite !count_append, Hm, Hc. simpl str. rewrite Hs. reflexivity.
  - rewrite !count_append, Hm, Hc. reflexivity.
Qed.

Lemma render_filter_count (f : filter) :
  filter_fault f = None ->
  count "?" (render_filter f) = List.length (filter_params f).
Proof.
  unfold filter_fault, render_filter, filter_params.
  destruct (column_fault (filter_column f)) eqn:Hc; [discriminate|].
  destruct (member (filter_operator f) ALLOWED_OPERATORS) eqn:Hm; [|discriminate].
  apply column_plain in Hc. apply allowed_operator_plain in Hm.
  destruct (is_in f); intros _.
  - rewrite !count_append, Hc, count_placeholders. simpl. lia.
  - rewrite !count_append, Hc, Hm. reflexivity.
Qed.

Lemma render_order_plain (o : ordering) :
  order_fault o = None -> count "?" (render_order o) = 0.
Proof.
  unfold order_fault, render_order.
  destruct (column_fault (order_column o)) eqn:Hc; [discriminate|].
  destruct (member (order_dir o) ALLOWED_ORDER) eqn:Hm; [|discriminate].
  apply column_plain in Hc. apply allowed_order_upper in Hm.
  intros _. rewrite !count_append, Hc.
  destruct Hm as [-> | ->]; reflexivity.
Qed.

Lemma name_plain (name : string) :
  name_fault name = None -> count "?" name = 0.
Proof.
  unfold name_fault. destruct (_validate_identifier name) eqn:Hn; [|discriminate].
  intros _. now apply validate_no_placeholder.
Qed.

Lemma list_sum_zero {A} (f : A -> nat) (l : list A) :
  Forall (fun x => f x = 0) l -> list_sum (List.map f l) = 0.
Proof. induction 1 as [|x l Hx _ IH]; simpl; [reflexivity | lia]. Qed.

Lemma list_sum_map_map {A B} (g : A -> B) (f : B -> nat) (l : list A) :
  list_sum (List.map f (List.map g l)) = list_sum (List.map (fun x => f (g x)) l).
Proof. now rewrite map_map. Qed.

Lemma count_clause (c : ascii) (keyword separator : string) (parts : list string) :
  count c keyword = 0 -> count c separator = 0 ->
  count c (clause keyword separator parts) = list_sum (List.map (count c) parts).
Proof.
  intros Hk Hs. unfold clause. destruct parts as [|x rest]; [reflexivity|].
  now rewrite count_append, Hk, count_join.
Qed.

Lemma length_filter_values (filters : list filter) :
  List.length (filter_values filters)
  = list_sum (List.map (fun f => List.length (filter_params f)) filters).
Proof.
  unfold filter_values. induction filters as [|f rest IH]; simpl; [reflexivity|].
  now rewrite length_app, IH.
Qed.

(** The count in the specification's words is the number of filter
    values. *)
Lemma filter_placeholders_values (filters : list filter) :
  filter_placeholders filters = List.length (filter_values filters).
Proof.
  rewrite length_filter_values. unfold filter_placeholders, filter_params.
  induction filters as [|f rest IH]; simpl; [reflexivity|].
  destruct (is_in f); simpl; lia.
Qed.

Lemma where_clause_count (filters : list filter) :
  first_fault filter_fault filters = None ->
  count "?" (where_clause filters) = List.length (filter_values filters).
Proof.
  intros H. apply first_fault_none in H.
  unfold where_clause. rewrite count_clause by reflexivity.
  rewrite list_sum_map_map, length_filter_values.
  induction H as [|f rest Hf _ IH]; simpl; [reflexivity|].
  now rewrite (render_filter_count f Hf), IH.
Qed.

Lemma order_clause_plain (order_by : list ordering) :
  first_fault order_fault order_by = None ->
  count "?" (order_clause order_by) = 0.
Proof.
  intros H. apply first_fault_none in H.
  unfold order_clause. rewrite count_clause by reflexivity.
  rewrite list_sum_map_map. apply list_sum_zero.
  revert H. apply Forall_impl. intros o. apply render_order_plain.
Qed.

Lemma names_plain (names : list string) :
  first_fault name_fault names = None ->
  list_sum (List.map (count "?") names) = 0.
Proof.
  intros H. apply first_fault_none in H. apply list_sum_zero.
  revert H. apply Forall_impl. intros n. apply name_plain.
Qed.

Lemma group_clause_plain (group_by : option (list string)) :
  first_fault name_fault (items group_by) = None ->
  count "?" (group_clause group_by) = 0.
Proof.
  intros H. unfold group_clause. rewrite count_clause by reflexivity.
  now apply names_plain.
Qed.

(** The projection of a request without fault holds no placeholder. *)
Lemma projection_plain
  (selected_columns group_by : option (list string))
  (aggregates : option (list aggregate)) :
  projection_fault selected_columns group_by aggregates = None ->
  list_sum (List.map (count "?")
              (projection selected_columns group_by aggregates)) = 0.
Proof.
  unfold projection_fault, projection. intros H.
  apply or_else_none in H. destruct H as [Hs H].
  apply or_else_none in H. destruct H as [Hg Ha].
  destruct (given group_by).
  - rewrite map_app, list_sum_app, (names_plain _ Hg), list_sum_map_map.
    apply first_fault_none in Ha. simpl. apply list_sum_zero.
    revert Ha. apply Forall_impl. intros a. apply render_aggregate_plain.
  - destruct (given selected_columns); [now apply names_plain | reflexivity].
Qed.

Lemma select_from_count (table_expr : string) (columns : list string) :
  list_sum (List.map (count "?") columns) = 0 ->
  count "?" (select_from table_expr columns) = count "?" table_expr.
Proof.
  intros H. unfold select_from.
  rewrite !count_append, count_join by reflexivity. rewrite H. reflexivity.
Qed.

Lemma join_around (separator : string) (before : list string) (x : string)
  (after : list string) :
  join separator (before ++ x :: after)
  = lead_in separator before ++ x ++ trail separator after.
Proof.
  unfold join. induction before as [|a before IH].
  - destruct after; simpl; autorewrite with text; reflexivity.
  - cbn [app]. destruct before as [|b before].
    + cbn [app] in *.
      change (String.concat separator (a :: x :: after))
        with (a ++ separator ++ String.concat separator (x :: after)).
      rewrite IH. unfold lead_in, join. simpl. autorewrite with text.
      reflexivity.
    + cbn [app] in *.
      change (String.concat separator (a :: b :: (before ++ x :: after)%list))
        with (a ++ separator
                ++ String.concat separator (b :: (before ++ x :: after)%list)).
      rewrite IH. unfold lead_in, join.
      change (String.concat separator (a :: b :: before))
        with (a ++ separator ++ String.concat separator (b :: before)).
      autorewrite with text. reflexivity.
Qed.

Lemma lead_in_count (filters : list filter) :
  first_fault filter_fault filters = None ->
  count "?" (lead_in " AND " (List.map render_filter filters))
  = List.length (filter_values filters).
Proof.
  intros H. pose proof (where_clause_count filters H) as Hw.
  unfold where_clause, clause in Hw. unfold lead_in.
  destruct (List.map render_filter filters) eqn:E.
  - destruct filters; [reflexivity | discriminate].
  - rewrite count_append in *. simpl in *. lia.
Qed.

End Placeholders.

(** ** The statement [parquet_read] executes *)

Section Execution.

Local Arguments String.append : simpl never.

Lemma statement_placeholders
  (table_expr : string)
  (selected_columns : option (list string))
  (filters : option (list filter))
  (group_by : option (list string))
  (order_by : option (list ordering))
  (limit : option Z) (offset : Z)
  (aggregates : option (list aggregate)) :
  query_fault selected_columns filters group_by order_by aggregates = None ->
  count "?" (body_text table_expr selected_columns filters group_by order_by
               aggregates
             ++ limit_clause limit ++ offset_clause offset)
  = count "?" table_expr
    + List.length (filter_values (items filters)
                   ++ limit_params limit ++ offset_params offset)%list.
Proof.
  intros Hq. unfold query_fault in Hq.
  apply or_else_none in Hq. destruct Hq as [Hp Hq].
  apply or_else_none in Hq. destruct Hq as [Hf Ho].
  assert (Hg : first_fault name_fault (items group_by) = None).
  { unfold projection_fault in Hp.
    apply or_else_none in Hp. destruct Hp as [_ Hp].
    now apply or_else_none in Hp. }
  unfold body_text. rewrite !count_append, !length_app.
  rewrite (select_from_count table_expr _ (projection_plain _ _ _ Hp)),
    (where_clause_count _ Hf), (group_clause_plain _ Hg),
    (order_clause_plain _ Ho).
  destruct limit; unfold offset_clause, offset_params;
    destruct (Z.eqb offset 0); simpl; lia.
Qed.

(** The statement of a request without fault is sent to the engine
    with the resolved path in front of the builder's parameters, one
    parameter per placeholder. *)
Lemma read_binds_every_placeholder
  (w : world) (path workspace_id agent_id session_id secure_path : string)
  (limit : option Z) (offset : Z)
  (selected_columns : option (list string))
  (filters : option (list filter))
  (group_by : option (list string))
  (order_by : option (list ordering))
  (aggregates : option (list aggregate)) :
  (offset <? 0)%Z
  || match limit with Some n => (n <? 0)%Z | None => false end = false ->
  endswith (lower path) ".parquet" = true ->
  duckdb_installed w = true ->
  get_secure_path w path workspace_id agent_id session_id = Value secure_path ->
  path_exists w secure_path = true ->
  query_fault selected_columns filters group_by order_by aggregates = None ->
  exists statement params rest,
    _build_query "read_parquet(?)" selected_columns filters group_by order_by
      limit offset aggregates
    = Value (Some statement, Params params)
    /\ snd (perform (parquet_read w path workspace_id agent_id session_id
                       limit offset selected_columns filters group_by
                       order_by aggregates))
       = ([Import "duckdb";
           ResolvePath path workspace_id agent_id session_id;
           PathExists secure_path;
           Connect;
           Execute statement (VStr secure_path :: params)] ++ rest)%list
    /\ count "?" statement = List.length (VStr secure_path :: params).
Proof.
  intros Hargs Hext Hdb Hpath Hfound Hq.
  pose proof (statement_placeholders "read_parquet(?)" selected_columns filters
                group_by order_by limit offset aggregates Hq) as Hcount.
  unfold perform, parquet_read. rewrite Hargs, Hext.
  unfold _require_duckdb, try_except, io_bind, call, lift, io_next, io_return.
  rewrite Hdb, Hpath, Hfound. cbn [negb append app].
  rewrite build_query_spec. unfold expected_outcome. rewrite Hq.
  remember (body_text "read_parquet(?)" selected_columns filters group_by
              order_by aggregates
            ++ limit_clause limit ++ offset_clause offset) as statement
    eqn:Hs.
  remember (filter_values (items filters)
            ++ limit_params limit ++ offset_params offset)%list as params.
  assert (Hhead : exists tl, statement = String "S" tl).
  { subst statement. unfold body_text, select_from.
    eexists. autorewrite with text. reflexivity. }
  destruct Hhead as [tl Htl]. rewrite Htl. rewrite <- Htl. cbn [unpack].
  exists statement, params.
  destruct (execute w statement (VStr secure_path :: params)) as [result|e].
  - destruct (execute w count_statement [VStr secure_path]) as [counted|e].
    + unfold fetchone_0, first_cell, io_raise.
      destruct (table_rows counted) as [|[|c row] more];
        eexists; (split; [reflexivity|]); (split; [reflexivity|]);
        rewrite Hcount; reflexivity.
    + eexists. split; [reflexivity|]. split; [reflexivity|].
      rewrite Hcount. reflexivity.
  - eexists. split; [reflexivity|]. split; [reflexivity|].
    rewrite Hcount. reflexivity.
Qed.

End Execution.

(** ** The claims *)

Section Claims.

Local Arguments String.append : simpl never.

(** C2 (the code departs from the claim).  The validator is meant to
    accept exactly the full matches of [[A-Za-z_][A-Za-z0-9_]*], but
    [abc] followed by a newline is accepted although the pattern does
    not match it in full: [$] also matches just before a final
    newline. *)
Theorem validate_identifier_trailing_newline :
  _validate_identifier abc_newline = true
  /\ identifier_fullmatch abc_newline = false
  /\ String.length abc_newline = 4.
Proof. repeat split. Qed.

(** C10.  Without a group-by the aggregates play no part: whatever
    they hold, valid or not, the builder yields what it yields when no
    aggregates are supplied. *)
Theorem aggregates_ignored_without_group_by
  (table_expr : string)
  (selected_columns : option (list string))
  (filters : option (list filter))
  (group_by : option (list string))
  (order_by : option (list ordering))
  (limit : option Z) (offset : Z)
  (aggregates : option (list aggregate)) :
  given group_by = false ->
  _build_query table_expr selected_columns filters group_by order_by
    limit offset aggregates
  = _build_query table_expr selected_columns filters group_by order_by
      limit offset None.
Proof.
  intros Hg. unfold _build_query, build_body. rewrite Hg. reflexivity.
Qed.

Lemma aggregates_ignored_witness :
  given (@None (list string)) = false
  /\ first_fault aggregate_fault [injected_aggregate]
     = Some (Rejected ("Invalid column name: " ++ injected))
  /\ _build_query "read_parquet(?)" None None None None None 0%Z
       (Some [injected_aggregate])
     = _build_query "read_parquet(?)" None None None None None 0%Z None.
Proof.
  split; [reflexivity|]. split; [reflexivity|].
  apply (aggregates_ignored_without_group_by "read_parquet(?)" None None None
           None None 0%Z (Some [injected_aggregate])).
  reflexivity.
Defined.

(** C1, as stated, fails: an aggregate whose column is off the
    pattern draws no error when there is no group-by, and the statement
    is built (without that column). *)
Lemma unguarded_aggregate_builds :
  names_off_pattern None None None None (Some [injected_aggregate]) = true
  /\ _build_query "read_parquet(?)" None None None None None 0%Z
       (Some [injected_aggregate])
     = Value (Some "SELECT * FROM read_parquet(?)", Params []).
Proof. split; reflexivity. Qed.

(** C1, amended.  When the validator refuses a selected column, a
    group-by column, a filter column or an order-by column, or, under
    a group-by, an aggregate column or a non-empty aggregate alias,
    [_build_query] never returns a statement; and on a request whose
    identifier positions hold strings (or nothing) it returns an error
    dictionary. *)
Theorem refused_identifier_builds_nothing
  (table_expr : string)
  (selected_columns : option (list string))
  (filters : option (list filter))
  (group_by : option (list string))
  (order_by : option (list ordering))
  (limit : option Z) (offset : Z)
  (aggregates : option (list aggregate)) :
  names_refused selected_columns filters group_by order_by aggregates = true ->
  (forall statement slot,
      _build_query table_expr selected_columns filters group_by order_by
        limit offset aggregates
      <> Value (Some statement, slot))
  /\ (textual_request filters order_by aggregates = true ->
      exists text,
        _build_query table_expr selected_columns filters group_by order_by
          limit offset aggregates
        = Value (None, ErrorDict text)).
Proof.
  intros H. apply names_refused_fault in H.
  rewrite build_query_spec. unfold expected_outcome.
  split.
  - intros statement slot.
    destruct (query_fault selected_columns filters group_by order_by aggregates)
      as [[text|v]|]; congruence.
  - intros Ht.
    pose proof (fun v => textual_request_calm selected_columns filters group_by
                           order_by aggregates v Ht) as Hcalm.
    destruct (query_fault selected_columns filters group_by order_by aggregates)
      as [[text|v]|].
    + now exists text.
    + exfalso. now apply (Hcalm v).
    + congruence.
Qed.

Lemma refused_identifier_witness :
  names_refused None (Some [injected_filter]) None None None = true
  /\ (forall statement slot,
         _build_query "read_parquet(?)" None (Some [injected_filter]) None None
           None 0%Z None
         <> Value (Some statement, slot))
  /\ (textual_request (Some [injected_filter]) None None = true ->
      exists text,
        _build_query "read_parquet(?)" None (Some [injected_filter]) None None
          None 0%Z None
        = Value (None, ErrorDict text)).
Proof.
  split; [reflexivity|].
  apply (refused_identifier_builds_nothing "read_parquet(?)" None
           (Some [injected_filter]) None None None 0%Z None).
  reflexivity.
Defined.

(** C7, as stated, fails: a filter whose column is the number 5 makes
    [re.match] raise, so the builder returns neither a statement nor an
    error. *)
Lemma numeric_column_raises :
  _build_query "read_parquet(?)" None (Some [numeric_column_filter]) None None
    None 0%Z None
  = Throw (TypeError (VInt 5)).
Proof. reflexivity. Qed.

(** C7, amended.  On every request whose identifier positions hold
    strings (or nothing), [_build_query] returns exactly one of a
    statement with its parameter list, when the request has no fault,
    or [None] with an error dictionary carrying the text of the first
    fault in checking order. *)
Theorem build_query_statement_or_error
  (table_expr : string)
  (selected_columns : option (list string))
  (filters : option (list filter))
  (group_by : option (list string))
  (order_by : option (list ordering))
  (limit : option Z) (offset : Z)
  (aggregates : option (list aggregate)) :
  textual_request filters order_by aggregates = true ->
  (exists statement params,
      _build_query table_expr selected_columns filters group_by order_by
        limit offset aggregates
      = Value (Some statement, Params params)
      /\ query_fault selected_columns filters group_by order_by aggregates
         = None)
  \/ (exists text,
         _build_query table_expr selected_columns filters group_by order_by
           limit offset aggregates
         = Value (None, ErrorDict text)
         /\ query_fault selected_columns filters group_by order_by aggregates
            = Some (Rejected text)).
Proof.
  intros Ht.
  pose proof (fun v => textual_request_calm selected_columns filters group_by
                         order_by aggregates v Ht) as Hcalm.
  rewrite build_query_spec. unfold expected_outcome.
  destruct (query_fault selected_columns filters group_by order_by aggregates)
    as [[text|v]|].
  - right. now exists text.
  - exfalso. now apply (Hcalm v).
  - left. eexists _, _. split; reflexivity.
Qed.

Lemma build_query_statement_or_error_witness :
  textual_request (Some [unsupported_filter]) None None = true
  /\ ((exists statement params,
          _build_query "read_parquet(?)" None (Some [unsupported_filter]) None
            None None 0%Z None
          = Value (Some statement, Params params)
          /\ query_fault None (Some [unsupported_filter]) None None None = None)
      \/ (exists text,
             _build_query "read_parquet(?)" None (Some [unsupported_filter]) None
               None None 0%Z None
             = Value (None, ErrorDict text)
             /\ query_fault None (Some [unsupported_filter]) None None None
                = Some (Rejected text))).
Proof.
  split; [reflexivity|].
  apply (build_query_statement_or_error "read_parquet(?)" None
           (Some [unsupported_filter]) None None None 0%Z None).
  reflexivity.
Defined.

(** C4.  On a request without fault the statement opens with
    [SELECT], the projection joined by commas, [FROM] and the table
    expression, where the projection is: under a group-by, the group-by
    columns followed by one rendered aggregate per entry (the group-by
    columns alone when no aggregates are given); else the selected
    columns in the given order; else the wildcard. *)
Theorem projection_of_statement
  (table_expr : string)
  (selected_columns : option (list string))
  (filters : option (list filter))
  (group_by : option (list string))
  (order_by : option (list ordering))
  (limit : option Z) (offset : Z)
  (aggregates : option (list aggregate)) :
  query_fault selected_columns filters group_by order_by aggregates = None ->
  exists columns rest params,
    _build_query table_expr selected_columns filters group_by order_by
      limit offset aggregates
    = Value (Some ("SELECT " ++ join ", " columns ++ " FROM " ++ table_expr
                   ++ rest),
             Params params)
    /\ (given group_by = true ->
        columns = (items group_by
                   ++ List.map render_aggregate (items aggregates))%list)
    /\ (given group_by = true -> given aggregates = false ->
        columns = items group_by)
    /\ (given group_by = false -> given selected_columns = true ->
        columns = items selected_columns)
    /\ (given group_by = false -> given selected_columns = false ->
        columns = ["*"]).
Proof.
  intros Hq. rewrite build_query_spec. unfold expected_outcome. rewrite Hq.
  exists (projection selected_columns group_by aggregates).
  eexists _, _. split.
  - unfold body_text, select_from. autorewrite with text. reflexivity.
  - unfold projection. repeat split.
    + now intros ->.
    + intros -> Ha. rewrite (given_false_items _ Ha). apply app_nil_r.
    + now intros -> ->.
    + now intros -> ->.
Qed.

Lemma projection_of_statement_witness :
  query_fault None None (Some ["age"]) (Some [age_desc]) (Some [count_id]) = None
  /\ exists columns rest params,
      _build_query "read_parquet(?)" None None (Some ["age"]) (Some [age_desc])
        None 0%Z (Some [count_id])
      = Value (Some ("SELECT " ++ join ", " columns ++ " FROM "
                     ++ "read_parquet(?)" ++ rest),
               Params params)
      /\ (given (Some ["age"]) = true ->
          columns = (items (Some ["age"])
                     ++ List.map render_aggregate (items (Some [count_id])))%list)
      /\ (given (Some ["age"]) = true -> given (Some [count_id]) = false ->
          columns = items (Some ["age"]))
      /\ (given (Some ["age"]) = false -> given (@None (list string)) = true ->
          columns = items (@None (list string)))
      /\ (given (Some ["age"]) = false -> given (@None (list string)) = false ->
          columns = ["*"]).
Proof.
  split; [reflexivity|].
  apply (projection_of_statement "read_parquet(?)" None None (Some ["age"])
           (Some [age_desc]) None 0%Z (Some [count_id])).
  reflexivity.
Defined.

(** C6.  On a request without fault the statement is the statement of
    the same request without limit and offset, followed by [ LIMIT ?]
    exactly when a limit is present and by [ OFFSET ?] exactly when the
    offset is not zero; the limit and then the offset are pushed after
    the other parameters; an offset of 0 leaves the statement and the
    parameters as they are without an offset clause. *)
Theorem limit_and_offset_clauses
  (table_expr : string)
  (selected_columns : option (list string))
  (filters : option (list filter))
  (group_by : option (list string))
  (order_by : option (list ordering))
  (limit : option Z) (offset : Z)
  (aggregates : option (list aggregate)) :
  query_fault selected_columns filters group_by order_by aggregates = None ->
  exists body params,
    _build_query table_expr selected_columns filters group_by order_by
      None 0%Z aggregates
    = Value (Some body, Params params)
    /\ _build_query table_expr selected_columns filters group_by order_by
         limit offset aggregates
       = Value (Some (body ++ limit_clause limit ++ offset_clause offset),
                Params (params ++ limit_params limit ++ offset_params offset)%list)
    /\ _build_query table_expr selected_columns filters group_by order_by
         limit 0%Z aggregates
       = Value (Some (body ++ limit_clause limit),
                Params (params ++ limit_params limit)%list)
    /\ (forall n, limit = Some n ->
        limit_clause limit = " LIMIT ?" /\ limit_params limit = [VInt n])
    /\ (limit = None -> limit_clause limit = "" /\ limit_params limit = [])
    /\ (offset <> 0%Z ->
        offset_clause offset = " OFFSET ?" /\ offset_params offset = [VInt offset])
    /\ (offset = 0%Z -> offset_clause offset = "" /\ offset_params offset = []).
Proof.
  intros Hq.
  exists (body_text table_expr selected_columns filters group_by order_by
            aggregates),
    (filter_values (items filters)).
  rewrite !build_query_spec. unfold expected_outcome. rewrite Hq.
  repeat apply conj.
  - simpl. autorewrite with text. reflexivity.
  - autorewrite with text. reflexivity.
  - simpl. autorewrite with text. reflexivity.
  - intros n ->. split; reflexivity.
  - intros ->. split; reflexivity.
  - intros Hoff. unfold offset_clause, offset_params.
    destruct (Z.eqb_spec offset 0); [contradiction | split; reflexivity].
  - intros ->. split; reflexivity.
Qed.

Lemma limit_and_offset_clauses_witness :
  query_fault None (Some [age_filter]) None None None = None
  /\ exists body params,
      _build_query "read_parquet(?)" None (Some [age_filter]) None None
        None 0%Z None
      = Value (Some body, Params params)
      /\ _build_query "read_parquet(?)" None (Some [age_filter]) None None
           (Some 10%Z) 5%Z None
         = Value (Some (body ++ limit_clause (Some 10%Z) ++ offset_clause 5%Z),
                  Params (params ++ limit_params (Some 10%Z)
                            ++ offset_params 5%Z)%list)
      /\ _build_query "read_parquet(?)" None (Some [age_filter]) None None
           (Some 10%Z) 0%Z None
         = Value (Some (body ++ limit_clause (Some 10%Z)),
                  Params (params ++ limit_params (Some 10%Z))%list)
      /\ (forall n, Some 10%Z = Some n ->
          limit_clause (Some 10%Z) = " LIMIT ?"
          /\ limit_params (Some 10%Z) = [VInt n])
      /\ (Some 10%Z = None ->
          limit_clause (Some 10%Z) = "" /\ limit_params (Some 10%Z) = [])
      /\ (5%Z <> 0%Z ->
          offset_clause 5%Z = " OFFSET ?" /\ offset_params 5%Z = [VInt 5%Z])
      /\ (5%Z = 0%Z -> offset_clause 5%Z = "" /\ offset_params 5%Z = []).
Proof.
  split; [reflexivity|].
  apply (limit_and_offset_clauses "read_parquet(?)" None (Some [age_filter])
           None None (Some 10%Z) 5%Z None).
  reflexivity.
Defined.

(** C3, as stated, fails: with the table expression [parquet_read]
    passes, the statement holds one placeholder more than the count the
    claim gives and than the parameter list returned. *)
Lemma table_placeholder_uncounted :
  _build_query "read_parquet(?)" None None None None None 0%Z None
  = Value (Some "SELECT * FROM read_parquet(?)", Params [])
  /\ count "?" "SELECT * FROM read_parquet(?)" = 1
  /\ expected_placeholders None None 0%Z = 0.
Proof. repeat split. Qed.

(** C3, amended.  On a request without fault the statement holds the
    placeholders of the table expression and, besides, one per filter
    that is not an [in], one per element of each [in] list, one for a
    limit and one for a non-zero offset; the parameter list has as many
    entries as that second count, and is the filter values in input
    order, then the limit, then the offset, which is the order of their
    placeholders in the statement. *)
Theorem placeholders_match_parameters
  (table_expr : string)
  (selected_columns : option (list string))
  (filters : option (list filter))
  (group_by : option (list string))
  (order_by : option (list ordering))
  (limit : option Z) (offset : Z)
  (aggregates : option (list aggregate)) :
  query_fault selected_columns filters group_by order_by aggregates = None ->
  exists statement params,
    _build_query table_expr selected_columns filters group_by order_by
      limit offset aggregates
    = Value (Some statement, Params params)
    /\ count "?" statement
       = count "?" table_expr + expected_placeholders filters limit offset
    /\ List.length params = expected_placeholders filters limit offset
    /\ params = (filter_values (items filters)
                 ++ limit_params limit ++ offset_params offset)%list
    /\ exists head middle,
        statement = head ++ where_clause (items filters) ++ middle
                    ++ limit_clause limit ++ offset_clause offset
        /\ count "?" head = count "?" table_expr
        /\ count "?" (where_clause (items filters))
           = List.length (filter_values (items filters))
        /\ count "?" middle = 0
        /\ count "?" (limit_clause limit) = List.length (limit_params limit)
        /\ count "?" (offset_clause offset) = List.length (offset_params offset).
Proof.
  intros Hq. rewrite build_query_spec. unfold expected_outcome. rewrite Hq.
  unfold query_fault in Hq.
  apply or_else_none in Hq. destruct Hq as [Hp Hq].
  apply or_else_none in Hq. destruct Hq as [Hf Ho].
  assert (Hg : first_fault name_fault (items group_by) = None).
  { unfold projection_fault in Hp.
    apply or_else_none in Hp. destruct Hp as [_ Hp].
    now apply or_else_none in Hp. }
  pose proof (select_from_count table_expr _
                (projection_plain _ _ _ Hp)) as Hhead.
  pose proof (where_clause_count _ Hf) as Hwhere.
  pose proof (group_clause_plain _ Hg) as Hgroup.
  pose proof (order_clause_plain _ Ho) as Horder.
  assert (Hlimit : count "?" (limit_clause limit)
                   = List.length (limit_params limit))
    by (destruct limit; reflexivity).
  assert (Hoffset : count "?" (offset_clause offset)
                    = List.length (offset_params offset))
    by (unfold offset_clause, offset_params;
        destruct (Z.eqb offset 0); reflexivity).
  eexists _, _. split; [reflexivity|].
  unfold expected_placeholders, body_text.
  rewrite filter_placeholders_values.
  repeat apply conj.
  - rewrite !count_append. lia.
  - rewrite !length_app. lia.
  - reflexivity.
  - exists (select_from table_expr
              (projection selected_columns group_by aggregates)),
      (group_clause group_by ++ order_clause (items order_by)).
    repeat apply conj; try assumption.
    + autorewrite with text. reflexivity.
    + rewrite count_append. lia.
Qed.

Lemma placeholders_match_parameters_witness :
  query_fault None (Some [age_filter; in_filter]) None None None = None
  /\ exists statement params,
      _build_query "read_parquet(?)" None (Some [age_filter; in_filter]) None
        None (Some 10%Z) 5%Z None
      = Value (Some statement, Params params)
      /\ count "?" statement
         = count "?" "read_parquet(?)"
           + expected_placeholders (Some [age_filter; in_filter]) (Some 10%Z) 5%Z
      /\ List.length params
         = expected_placeholders (Some [age_filter; in_filter]) (Some 10%Z) 5%Z
      /\ params = (filter_values (items (Some [age_filter; in_filter]))
                   ++ limit_params (Some 10%Z) ++ offset_params 5%Z)%list
      /\ exists head middle,
          statement = head ++ where_clause (items (Some [age_filter; in_filter]))
                      ++ middle ++ limit_clause (Some 10%Z) ++ offset_clause 5%Z
          /\ count "?" head = count "?" "read_parquet(?)"
          /\ count "?" (where_clause (items (Some [age_filter; in_filter])))
             = List.length (filter_values (items (Some [age_filter; in_filter])))
          /\ count "?" middle = 0
          /\ count "?" (limit_clause (Some 10%Z))
             = List.length (limit_params (Some 10%Z))
          /\ count "?" (offset_clause 5%Z) = List.length (offset_params 5%Z).
Proof.
  split; [reflexivity|].
  apply (placeholders_match_parameters "read_parquet(?)" None
           (Some [age_filter; in_filter]) None None (Some 10%Z) 5%Z None).
  reflexivity.
Defined.

(** C5.  Take a filter that the builder reaches (no fault before it)
    with a validated column and an allowed operator.  If the operator
    is [in] and the value is not a non-empty list, the builder returns
    the error "IN operator requires a non-empty list value".  If the
    filter and what follows it are without fault, the statement holds
    the filter's clause and the parameter list holds its values, after
    those of the earlier filters: [column IN (?, ?, ...)] with one
    placeholder per element and the elements in order for [in],
    [column OP ?] and the single value for every other operator. *)
Theorem filter_clause_and_values
  (table_expr : string)
  (selected_columns : option (list string))
  (earlier : list filter) (f : filter) (later : list filter)
  (group_by : option (list string))
  (order_by : option (list ordering))
  (limit : option Z) (offset : Z)
  (aggregates : option (list aggregate)) :
  projection_fault selected_columns group_by aggregates = None ->
  first_fault filter_fault earlier = None ->
  column_fault (filter_column f) = None ->
  member (filter_operator f) ALLOWED_OPERATORS = true ->
  (is_in f = true -> nonempty_list (filter_value f) = false ->
   _build_query table_expr selected_columns (Some (earlier ++ f :: later)%list)
     group_by order_by limit offset aggregates
   = Value (None, ErrorDict "IN operator requires a non-empty list value"))
  /\ (filter_fault f = None ->
      first_fault filter_fault later = None ->
      first_fault order_fault (items order_by) = None ->
      exists before rest,
        _build_query table_expr selected_columns (Some (earlier ++ f :: later)%list)
          group_by order_by limit offset aggregates
        = Value (Some (before ++ render_filter f ++ rest),
                 Params (filter_values earlier ++ filter_params f
                           ++ filter_values later
                           ++ limit_params limit ++ offset_params offset)%list)
        /\ count "?" before
           = count "?" table_expr + List.length (filter_values earlier)
        /\ count "?" (render_filter f) = List.length (filter_params f)
        /\ (is_in f = true ->
            exists v vs,
              filter_value f = VList (v :: vs)
              /\ render_filter f
                 = str (filter_column f) ++ " IN ("
                     ++ placeholders (List.length (v :: vs)) ++ ")"
              /\ filter_params f = v :: vs)
        /\ (is_in f = false ->
            render_filter f
            = str (filter_column f) ++ " " ++ filter_operator f ++ " ?"
            /\ filter_params f = [filter_value f])).
Proof.
  intros Hp He Hc Hm. split.
  - intros Hin Hv. rewrite build_query_spec.
    unfold expected_outcome, query_fault. rewrite Hp. cbn [or_else items].
    rewrite first_fault_app, He. cbn [or_else first_fault].
    unfold filter_fault. rewrite Hc, Hm, Hin.
    destruct (filter_value f) as [| | | |[|v vs]]; try reflexivity.
    discriminate Hv.
  - intros Hf Hl Ho. rewrite build_query_spec.
    unfold expected_outcome, query_fault. rewrite Hp. cbn [or_else items].
    rewrite first_fault_app, He. cbn [or_else first_fault].
    rewrite Hf, Hl, Ho. cbn [or_else].
    unfold body_text, where_clause, clause, filter_values. cbn [items].
    rewrite map_app, flat_map_app. cbn [List.map flat_map].
    destruct (List.map render_filter earlier ++ render_filter f
                :: List.map render_filter later)%list eqn:E.
    { destruct (List.map render_filter earlier); discriminate. }
    rewrite <- E, join_around. clear E.
    exists (select_from table_expr
              (projection selected_columns group_by aggregates)
            ++ " WHERE " ++ lead_in " AND " (List.map render_filter earlier)),
      (trail " AND " (List.map render_filter later)
       ++ group_clause group_by ++ order_clause (items order_by)
       ++ limit_clause limit ++ offset_clause offset).
    repeat apply conj.
    + autorewrite with text. reflexivity.
    + rewrite !count_append, lead_in_count by assumption.
      rewrite (select_from_count _ _ (projection_plain _ _ _ Hp)).
      reflexivity.
    + now apply render_filter_count.
    + intros Hin. unfold filter_fault in Hf. rewrite Hc, Hm, Hin in Hf.
      unfold render_filter, filter_params. rewrite Hin.
      destruct (filter_value f) as [| | | |[|v vs]]; try discriminate.
      exists v, vs. repeat split.
    + intros Hin. unfold render_filter, filter_params. rewrite Hin.
      split; reflexivity.
Qed.

Lemma filter_clause_and_values_witness :
  projection_fault None None None = None
  /\ first_fault filter_fault [age_filter] = None
  /\ column_fault (filter_column in_filter) = None
  /\ member (filter_operator in_filter) ALLOWED_OPERATORS = true
  /\ (is_in in_filter = true -> nonempty_list (filter_value in_filter) = false ->
      _build_query "read_parquet(?)" None (Some ([age_filter] ++ in_filter :: [])%list)
        None None None 0%Z None
      = Value (None, ErrorDict "IN operator requires a non-empty list value"))
  /\ (filter_fault in_filter = None ->
      first_fault filter_fault [] = None ->
      first_fault order_fault (items (@None (list ordering))) = None ->
      exists before rest,
        _build_query "read_parquet(?)" None
          (Some ([age_filter] ++ in_filter :: [])%list) None None None 0%Z None
        = Value (Some (before ++ render_filter in_filter ++ rest),
                 Params (filter_values [age_filter] ++ filter_params in_filter
                           ++ filter_values []
                           ++ limit_params None ++ offset_params 0%Z)%list)
        /\ count "?" before
           = count "?" "read_parquet(?)"
             + List.length (filter_values [age_filter])
        /\ count "?" (render_filter in_filter)
           = List.length (filter_params in_filter)
        /\ (is_in in_filter = true ->
            exists v vs,
              filter_value in_filter = VList (v :: vs)
              /\ render_filter in_filter
                 = str (filter_column in_filter) ++ " IN ("
                     ++ placeholders (List.length (v :: vs)) ++ ")"
              /\ filter_params in_filter = v :: vs)
        /\ (is_in in_filter = false ->
            render_filter in_filter
            = str (filter_column in_filter) ++ " "
                ++ filter_operator in_filter ++ " ?"
            /\ filter_params in_filter = [filter_value in_filter])).
Proof.
  split; [reflexivity|]. split; [reflexivity|].
  split; [reflexivity|]. split; [reflexivity|].
  apply (filter_clause_and_values "read_parquet(?)" None [age_filter] in_filter
           [] None None None 0%Z None); reflexivity.
Defined.

(** C8.  A path whose lower-cased form does not end in [.parquet]
    makes each of the three tools return an error dictionary with an
    empty trace: nothing was imported, resolved, looked up on disk or
    sent to the engine. *)
Theorem extension_checked_before_io
  (w : world) (path workspace_id agent_id session_id : string)
  (limit : option Z) (offset : Z)
  (selected_columns : option (list string))
  (filters : option (list filter))
  (group_by : option (list string))
  (order_by : option (list ordering))
  (aggregates : option (list aggregate))
  (columns : list string) (rows : list record) :
  endswith (lower path) ".parquet" = false ->
  (exists text,
      perform (parquet_read w path workspace_id agent_id session_id limit offset
                 selected_columns filters group_by order_by aggregates)
      = (Value (Error text), [])
      /\ (text = "File must have .parquet extension"
          \/ text = "offset and limit must be non-negative"))
  /\ perform (parquet_write w path workspace_id agent_id session_id columns rows)
     = (Value (Error "File must have .parquet extension"), [])
  /\ perform (parquet_info w path workspace_id agent_id session_id)
     = (Value (Error "File must have .parquet extension"), []).
Proof.
  intros Hext. repeat apply conj.
  - unfold perform, parquet_read. rewrite Hext.
    destruct ((offset <? 0)%Z
              || match limit with Some n => (n <? 0)%Z | None => false end);
      simpl; eexists; (split; [reflexivity|]); auto.
  - unfold perform, parquet_write. now rewrite Hext.
  - unfold perform, parquet_info. now rewrite Hext.
Qed.

Lemma extension_checked_before_io_witness :
  endswith (lower "data.txt") ".parquet" = false
  /\ (exists text,
         perform (parquet_read empty_workspace "data.txt" "ws" "agent" "session"
                    None 0%Z None None None None None)
         = (Value (Error text), [])
         /\ (text = "File must have .parquet extension"
             \/ text = "offset and limit must be non-negative"))
  /\ perform (parquet_write empty_workspace "data.txt" "ws" "agent" "session"
                ["id"] [])
     = (Value (Error "File must have .parquet extension"), [])
  /\ perform (parquet_info empty_workspace "data.txt" "ws" "agent" "session")
     = (Value (Error "File must have .parquet extension"), []).
Proof.
  split; [reflexivity|].
  apply (extension_checked_before_io empty_workspace "data.txt" "ws" "agent"
           "session" None 0%Z None None None None None ["id"] []).
  reflexivity.
Defined.

(** C9.  A read request that passes the argument and extension checks,
    with the engine module present and the path resolved to a file that
    is not on disk, gets the error "File not found: <path>" from
    [parquet_read] and from [parquet_info]; the trace ends with the
    look-up on disk, so the engine was neither connected to nor handed
    a statement. *)
Theorem missing_file_reported_before_engine
  (w : world) (path workspace_id agent_id session_id secure_path : string)
  (limit : option Z) (offset : Z)
  (selected_columns : option (list string))
  (filters : option (list filter))
  (group_by : option (list string))
  (order_by : option (list ordering))
  (aggregates : option (list aggregate)) :
  (offset <? 0)%Z
  || match limit with Some n => (n <? 0)%Z | None => false end = false ->
  endswith (lower path) ".parquet" = true ->
  duckdb_installed w = true ->
  get_secure_path w path workspace_id agent_id session_id = Value secure_path ->
  path_exists w secure_path = false ->
  perform (parquet_read w path workspace_id agent_id session_id limit offset
             selected_columns filters group_by order_by aggregates)
  = (Value (Error ("File not found: " ++ path)),
     [Import "duckdb";
      ResolvePath path workspace_id agent_id session_id;
      PathExists secure_path])
  /\ perform (parquet_info w path workspace_id agent_id session_id)
     = (Value (Error ("File not found: " ++ path)),
        [Import "duckdb";
         ResolvePath path workspace_id agent_id session_id;
         PathExists secure_path]).
Proof.
  intros Hargs Hext Hdb Hpath Hmissing. split.
  - unfold perform, parquet_read. rewrite Hargs, Hext.
    unfold _require_duckdb, try_except, io_bind, call, io_next, io_return.
    rewrite Hdb, Hpath, Hmissing. reflexivity.
  - unfold perform, parquet_info. rewrite Hext.
    unfold _require_duckdb, try_except, io_bind, call, io_next, io_return.
    rewrite Hdb, Hpath, Hmissing. reflexivity.
Qed.

Lemma missing_file_reported_witness :
  ((0 <? 0)%Z || false = false)
  /\ endswith (lower "Basic.PARQUET") ".parquet" = true
  /\ duckdb_installed empty_workspace = true
  /\ get_secure_path empty_workspace "Basic.PARQUET" "ws" "agent" "session"
     = Value "/workspaces/Basic.PARQUET"
  /\ path_exists empty_workspace "/workspaces/Basic.PARQUET" = false
  /\ perform (parquet_read empty_workspace "Basic.PARQUET" "ws" "agent"
                "session" None 0%Z None (Some [age_filter]) None None None)
     = (Value (Error ("File not found: " ++ "Basic.PARQUET")),
        [Import "duckdb";
         ResolvePath "Basic.PARQUET" "ws" "agent" "session";
         PathExists "/workspaces/Basic.PARQUET"])
  /\ perform (parquet_info empty_workspace "Basic.PARQUET" "ws" "agent" "session")
     = (Value (Error ("File not found: " ++ "Basic.PARQUET")),
        [Import "duckdb";
         ResolvePath "Basic.PARQUET" "ws" "agent" "session";
         PathExists "/workspaces/Basic.PARQUET"]).
Proof.
  split; [reflexivity|]. split; [reflexivity|]. split; [reflexivity|].
  split; [reflexivity|]. split; [reflexivity|].
  apply (missing_file_reported_before_engine empty_workspace "Basic.PARQUET"
           "ws" "agent" "session" "/workspaces/Basic.PARQUET" None 0%Z None
           (Some [age_filter]) None None None); reflexivity.
Defined.

End Claims.

(** ** Further properties of the clause assembler *)

Section Assembler.

Local Arguments String.append : simpl never.
Local Arguments member : simpl never.

(** X1.  On a request without fault the statement is the projection,
    then the filter clause, the group-by clause, the order-by clause,
    the limit and the offset, in that order and with nothing between
    them; a clause whose list is empty is left out altogether, and the
    group-by clause is the group-by columns joined by commas. *)
Theorem statement_clause_order
  (table_expr : string)
  (selected_columns : option (list string))
  (filters : option (list filter))
  (group_by : option (list string))
  (order_by : option (list ordering))
  (limit : option Z) (offset : Z)
  (aggregates : option (list aggregate)) :
  query_fault selected_columns filters group_by order_by aggregates = None ->
  (exists params,
      _build_query table_expr selected_columns filters group_by order_by
        limit offset aggregates
      = Value (Some (select_from table_expr
                       (projection selected_columns group_by aggregates)
                     ++ where_clause (items filters)
                     ++ group_clause group_by
                     ++ order_clause (items order_by)
                     ++ limit_clause limit ++ offset_clause offset),
               Params params))
  /\ (given filters = false -> where_clause (items filters) = "")
  /\ (given filters = true ->
      where_clause (items filters)
      = " WHERE " ++ join " AND " (List.map render_filter (items filters)))
  /\ (given group_by = false -> group_clause group_by = "")
  /\ (given group_by = true ->
      group_clause group_by = " GROUP BY " ++ join ", " (items group_by))
  /\ (given order_by = false -> order_clause (items order_by) = "")
  /\ (given order_by = true ->
      order_clause (items order_by)
      = " ORDER BY " ++ join ", " (List.map render_order (items order_by))).
Proof.
  intros Hq. repeat apply conj.
  - rewrite build_query_spec. unfold expected_outcome. rewrite Hq.
    eexists. unfold body_text. autorewrite with text. reflexivity.
  - intros H. now rewrite (given_false_items _ H).
  - destruct filters as [[|f fl]|]; simpl; try discriminate. reflexivity.
  - intros H. unfold group_clause. now rewrite (given_false_items _ H).
  - destruct group_by as [[|g gs]|]; simpl; try discriminate. reflexivity.
  - intros H. now rewrite (given_false_items _ H).
  - destruct order_by as [[|o os]|]; simpl; try discriminate. reflexivity.
Qed.

Lemma statement_clause_order_witness :
  query_fault None (Some [age_filter]) (Some ["age"]) (Some [age_desc])
    (Some [count_id]) = None
  /\ _build_query "t" None (Some [age_filter]) (Some ["age"]) (Some [age_desc])
       (Some 10%Z) 5%Z (Some [count_id])
     = Value (Some "SELECT age, count(id) AS count_id FROM t WHERE age > ? GROUP BY age ORDER BY age DESC LIMIT ? OFFSET ?",
              Params [VInt 30; VInt 10; VInt 5])
  /\ (exists params,
      _build_query "t" None (Some [age_filter]) (Some ["age"]) (Some [age_desc])
        (Some 10%Z) 5%Z (Some [count_id])
      = Value (Some (select_from "t"
                       (projection None (Some ["age"]) (Some [count_id]))
                     ++ where_clause (items (Some [age_filter]))
                     ++ group_clause (Some ["age"])
                     ++ order_clause (items (Some [age_desc]))
                     ++ limit_clause (Some 10%Z) ++ offset_clause 5%Z),
               Params params)).
Proof.
  split; [reflexivity|]. split; [reflexivity|].
  apply (statement_clause_order "t" None (Some [age_filter]) (Some ["age"])
           (Some [age_desc]) (Some 10%Z) 5%Z (Some [count_id])).
  reflexivity.
Defined.



Lemma column_fault_rejected (column : pyval) :
  truthy column = false \/ refused column = true ->
  column_fault column
  = Some (Rejected ("Invalid column name: " ++ str column)).
Proof.
  unfold column_fault. intros [H|H].
  - now rewrite H.
  - destruct column as [| | |s|]; try discriminate. simpl in H.
    unfold text_fault, name_fault. cbn [str].
    destruct (truthy (VStr s)); [|reflexivity].
    now destruct (_validate_identifier s).
Qed.

(** X3.  A filter the builder reaches (no fault before it) ends the
    call with an error that names what failed: "Invalid column name"
    with the column as [str] prints it when the column is missing,
    empty, otherwise falsy, or a string the validator refuses;
    "Unsupported operator" with the lower-cased operator when the
    column passes and the operator is not one of the eight allowed
    (a missing operator is the empty string). *)
Theorem filter_errors
  (table_expr : string)
  (selected_columns : option (list string))
  (earlier : list filter) (f : filter) (later : list filter)
  (group_by : option (list string))
  (order_by : option (list ordering))
  (limit : option Z) (offset : Z)
  (aggregates : option (list aggregate)) :
  projection_fault selected_columns group_by aggregates = None ->
  first_fault filter_fault earlier = None ->
  (truthy (filter_column f) = false \/ refused (filter_column f) = true ->
   _build_query table_expr selected_columns (Some (earlier ++ f :: later)%list)
     group_by order_by limit offset aggregates
   = Value (None, ErrorDict ("Invalid column name: " ++ str (filter_column f))))
  /\ (column_fault (filter_column f) = None ->
      member (lower (str (get_or "" (filter_op f)))) ALLOWED_OPERATORS = false ->
      _build_query table_expr selected_columns (Some (earlier ++ f :: later)%list)
        group_by order_by limit offset aggregates
      = Value (None,
               ErrorDict ("Unsupported operator: "
                          ++ lower (str (get_or "" (filter_op f)))))).
Proof.
  intros Hp He.
  assert (Hrun : forall text,
             filter_fault f = Some (Rejected text) ->
             _build_query table_expr selected_columns
               (Some (earlier ++ f :: later)%list)
               group_by order_by limit offset aggregates
             = Value (None, ErrorDict text)).
  { intros text Hf. rewrite build_query_spec.
    unfold expected_outcome, query_fault. rewrite Hp. cbn [or_else items].
    rewrite first_fault_app, He. cbn [or_else first_fault]. now rewrite Hf. }
  split.
  - intros H. apply Hrun. unfold filter_fault.
    now rewrite (column_fault_rejected _ H).
  - intros Hc Hm. apply Hrun. unfold filter_fault, filter_operator.
    now rewrite Hc, Hm.
Qed.

Lemma filter_errors_witness :
  projection_fault None None None = None
  /\ first_fault filter_fault [age_filter] = None
  /\ (truthy (filter_column keyless_filter) = false
      \/ refused (filter_column keyless_filter) = true)
  /\ _build_query "t" None (Some ([age_filter] ++ keyless_filter :: [])%list)
       None None None 0%Z None
     = Value (None, ErrorDict "Invalid column name: None")
  /\ (truthy (filter_column keyless_filter) = false
      \/ refused (filter_column keyless_filter) = true ->
      _build_query "t" None (Some ([age_filter] ++ keyless_filter :: [])%list)
        None None None 0%Z None
      = Value (None,
               ErrorDict ("Invalid column name: "
                          ++ str (filter_column keyless_filter)))).
Proof.
  split; [reflexivity|]. split; [reflexivity|].
  split; [left; reflexivity|]. split; [reflexivity|].
  apply (filter_errors "t" None [age_filter] keyless_filter [] None None None
           0%Z None); reflexivity.
Defined.

(** X4.  Under a group-by, an aggregate the builder reaches ends the
    call with an error that names what failed: "Invalid column name"
    for a missing, falsy or refused column; "Unsupported aggregate"
    with the lower-cased function when the column passes and the
    function is not one of the five allowed; "Invalid column name"
    with the alias when column and function pass and the alias is a
    non-empty string the validator refuses. *)
Theorem aggregate_errors
  (table_expr : string)
  (selected_columns : option (list string))
  (filters : option (list filter))
  (group_by : option (list string))
  (order_by : option (list ordering))
  (limit : option Z) (offset : Z)
  (earlier : list aggregate) (a : aggregate) (later : list aggregate) :
  given group_by = true ->
  first_fault name_fault (items selected_columns) = None ->
  first_fault name_fault (items group_by) = None ->
  first_fault aggregate_fault earlier = None ->
  (truthy (agg_column a) = false \/ refused (agg_column a) = true ->
   _build_query table_expr selected_columns filters group_by order_by
     limit offset (Some (earlier ++ a :: later)%list)
   = Value (None, ErrorDict ("Invalid column name: " ++ str (agg_column a))))
  /\ (column_fault (agg_column a) = None ->
      member (lower (str (get_or "" (agg_op a)))) ALLOWED_AGGREGATES = false ->
      _build_query table_expr selected_columns filters group_by order_by
        limit offset (Some (earlier ++ a :: later)%list)
      = Value (None,
               ErrorDict ("Unsupported aggregate: "
                          ++ lower (str (get_or "" (agg_op a))))))
  /\ (column_fault (agg_column a) = None ->
      member (lower (str (get_or "" (agg_op a)))) ALLOWED_AGGREGATES = true ->
      truthy (agg_alias a) = true -> refused (agg_alias a) = true ->
      _build_query table_expr selected_columns filters group_by order_by
        limit offset (Some (earlier ++ a :: later)%list)
      = Value (None, ErrorDict ("Invalid column name: " ++ str (agg_alias a)))).
Proof.
  intros Hg Hs Hgb He.
  assert (Hrun : forall text,
             aggregate_fault a = Some (Rejected text) ->
             _build_query table_expr selected_columns filters group_by order_by
               limit offset (Some (earlier ++ a :: later)%list)
             = Value (None, ErrorDict text)).
  { intros text Hf. rewrite build_query_spec.
    unfold expected_outcome, query_fault, projection_fault.
    rewrite Hs, Hgb, Hg. cbn [or_else items].
    rewrite first_fault_app, He. cbn [or_else first_fault]. now rewrite Hf. }
  repeat apply conj.
  - intros H. apply Hrun. unfold aggregate_fault.
    now rewrite (column_fault_rejected _ H).
  - intros Hc Hm. apply Hrun. unfold aggregate_fault, agg_func.
    now rewrite Hc, Hm.
  - intros Hc Hm Ht Hr. apply Hrun. unfold aggregate_fault, agg_func.
    rewrite Hc, Hm, Ht.
    destruct (agg_alias a) as [| | |s|]; try discriminate.
    simpl in Hr. unfold text_fault, name_fault. cbn [str].
    now destruct (_validate_identifier s).
Qed.

Lemma aggregate_errors_witness :
  given (Some ["age"]) = true
  /\ first_fault name_fault (items (@None (list string))) = None
  /\ first_fault name_fault (items (Some ["age"])) = None
  /\ first_fault aggregate_fault [count_id] = None
  /\ _build_query "t" None None (Some ["age"]) None None 0%Z
       (Some ([count_id] ++ median_id :: [])%list)
     = Value (None, ErrorDict "Unsupported aggregate: median")
  /\ (column_fault (agg_column median_id) = None ->
      member (lower (str (get_or "" (agg_op median_id)))) ALLOWED_AGGREGATES
      = false ->
      _build_query "t" None None (Some ["age"]) None None 0%Z
        (Some ([count_id] ++ median_id :: [])%list)
      = Value (None,
               ErrorDict ("Unsupported aggregate: "
                          ++ lower (str (get_or "" (agg_op median_id)))))).
Proof.
  split; [reflexivity|]. split; [reflexivity|]. split; [reflexivity|].
  split; [reflexivity|]. split; [reflexivity|].
  apply (aggregate_errors "t" None None (Some ["age"]) None None 0%Z
           [count_id] median_id []); reflexivity.
Defined.

(** X5.  An order-by entry the builder reaches (nothing before it is
    at fault, the filters included) ends the call with an error that
    names what failed: "Invalid column name" for a missing, falsy or
    refused column; "Unsupported order direction" with the lower-cased
    direction when the column passes and the direction is neither
    [asc] nor [desc]. *)
Theorem order_errors
  (table_expr : string)
  (selected_columns : option (list string))
  (filters : option (list filter))
  (group_by : option (list string))
  (earlier : list ordering) (o : ordering) (later : list ordering)
  (limit : option Z) (offset : Z)
  (aggregates : option (list aggregate)) :
  projection_fault selected_columns group_by aggregates = None ->
  first_fault filter_fault (items filters) = None ->
  first_fault order_fault earlier = None ->
  (truthy (order_column o) = false \/ refused (order_column o) = true ->
   _build_query table_expr selected_columns filters group_by
     (Some (earlier ++ o :: later)%list) limit offset aggregates
   = Value (None, ErrorDict ("Invalid column name: " ++ str (order_column o))))
  /\ (column_fault (order_column o) = None ->
      member (lower (str (get_or "asc" (order_direction o)))) ALLOWED_ORDER
      = false ->
      _build_query table_expr selected_columns filters group_by
        (Some (earlier ++ o :: later)%list) limit offset aggregates
      = Value (None,
               ErrorDict ("Unsupported order direction: "
                          ++ lower (str (get_or "asc" (order_direction o)))))).
Proof.
  intros Hp Hf He.
  assert (Hrun : forall text,
             order_fault o = Some (Rejected text) ->
             _build_query table_expr selected_columns filters group_by
               (Some (earlier ++ o :: later)%list) limit offset aggregates
             = Value (None, ErrorDict text)).
  { intros text Ho. rewrite build_query_spec.
    unfold expected_outcome, query_fault. rewrite Hp, Hf. cbn [or_else items].
    rewrite first_fault_app, He. cbn [or_else first_fault]. now rewrite Ho. }
  split.
  - intros H. apply Hrun. unfold order_fault.
    now rewrite (column_fault_rejected _ H).
  - intros Hc Hm. apply Hrun. unfold order_fault, order_dir.
    now rewrite Hc, Hm.
Qed.

Lemma order_errors_witness :
  projection_fault None None None = None
  /\ first_fault filter_fault (items (Some [age_filter])) = None
  /\ first_fault order_fault [name_default] = None
  /\ _build_query "t" None (Some [age_filter]) None
       (Some ([name_default] ++ age_sideways :: [])%list) None 0%Z None
     = Value (None, ErrorDict "Unsupported order direction: sideways")
  /\ (column_fault (order_column age_sideways) = None ->
      member (lower (str (get_or "asc" (order_direction age_sideways))))
        ALLOWED_ORDER = false ->
      _build_query "t" None (Some [age_filter]) None
        (Some ([name_default] ++ age_sideways :: [])%list) None 0%Z None
      = Value (None,
               ErrorDict ("Unsupported order direction: "
                          ++ lower (str (get_or "asc"
                                           (order_direction age_sideways)))))).
Proof.
  split; [reflexivity|]. split; [reflexivity|]. split; [reflexivity|].
  split; [reflexivity|].
  apply (order_errors "t" None (Some [age_filter]) None [name_default]
           age_sideways [] None 0%Z None); reflexivity.
Defined.

End Assembler.

(** ** What user text cannot put into a statement *)

Section Metachars.

Local Arguments String.append : simpl never.
Local Arguments member : simpl never.

Variable c : ascii.
Hypothesis Hc : In c sql_metachars.

Ltac by_metachar :=
  let H := fresh in
  pose proof Hc as H; simpl in H;
  repeat (destruct H as [<-|H]; [reflexivity|]); destruct H.

Lemma metachar_off_whitelist : body_or_newline c = false.
Proof. by_metachar. Qed.

Lemma validated_clean (name : string) :
  _validate_identifier name = true -> count c name = 0.
Proof.
  intros H. apply (count_all_chars body_or_newline).
  - apply metachar_off_whitelist.
  - now apply validate_chars.
Qed.

Lemma name_clean (name : string) :
  name_fault name = None -> count c name = 0.
Proof.
  unfold name_fault. destruct (_validate_identifier name) eqn:Hn; [|discriminate].
  intros _. now apply validated_clean.
Qed.

Lemma column_clean (column : pyval) :
  column_fault column = None -> count c (str column) = 0.
Proof.
  intros H. apply column_fault_passes in H. destruct H as [name [-> Hn]].
  now apply validated_clean.
Qed.

Lemma operator_clean (op : string) :
  member op ALLOWED_OPERATORS = true -> count c op = 0.
Proof.
  intros H. apply member_In in H. simpl in H.
  repeat (destruct H as [<-|H]; [by_metachar|]). destruct H.
Qed.

Lemma function_clean (func : string) :
  member func ALLOWED_AGGREGATES = true -> count c func = 0.
Proof.
  intros H. apply member_In in H. simpl in H.
  repeat (destruct H as [<-|H]; [by_metachar|]). destruct H.
Qed.

Lemma placeholders_clean (n : nat) : count c (placeholders n) = 0.
Proof.
  unfold placeholders. rewrite count_join by by_metachar.
  assert (Hq : count c "?" = 0) by by_metachar.
  induction n as [|n IH]; [reflexivity|].
  change (list_sum (List.map (count c) (repeat "?" (S n))))
    with (count c "?" + list_sum (List.map (count c) (repeat "?" n))).
  now rewrite Hq, IH.
Qed.

Lemma render_aggregate_clean (a : aggregate) :
  aggregate_fault a = None -> count c (render_aggregate a) = 0.
Proof.
  unfold aggregate_fault, render_aggregate.
  destruct (column_fault (agg_column a)) eqn:Hcol; [discriminate|].
  destruct (member (agg_func a) ALLOWED_AGGREGATES) eqn:Hm; [|discriminate].
  apply column_clean in Hcol. apply function_clean in Hm.
  assert (Hopen : count c "(" = 0) by by_metachar.
  assert (Hclose : count c ")" = 0) by by_metachar.
  assert (Has : count c " AS " = 0) by by_metachar.
  destruct (truthy (agg_alias a)) eqn:Ht; intros H.
  - destruct (agg_alias a) as [| | |s|]; try discriminate.
    unfold text_fault in H. apply name_clean in H. cbn [str].
    rewrite !count_append. lia.
  - rewrite !count_append. lia.
Qed.

Lemma render_filter_clean (f : filter) :
  filter_fault f = None -> count c (render_filter f) = 0.
Proof.
  unfold filter_fault, render_filter.
  destruct (column_fault (filter_column f)) eqn:Hcol; [discriminate|].
  destruct (member (filter_operator f) ALLOWED_OPERATORS) eqn:Hm; [|discriminate].
  apply column_clean in Hcol. apply operator_clean in Hm.
  assert (Hin : count c " IN (" = 0) by by_metachar.
  assert (Hclose : count c ")" = 0) by by_metachar.
  assert (Hsp : count c " " = 0) by by_metachar.
  assert (Hq : count c " ?" = 0) by by_metachar.
  destruct (is_in f); intros _.
  - rewrite !count_append, placeholders_clean. lia.
  - rewrite !count_append. lia.
Qed.

Lemma render_order_clean (o : ordering) :
  order_fault o = None -> count c (render_order o) = 0.
Proof.
  unfold order_fault, render_order.
  destruct (column_fault (order_column o)) eqn:Hcol; [discriminate|].
  destruct (member (order_dir o) ALLOWED_ORDER) eqn:Hm; [|discriminate].
  apply column_clean in Hcol. apply allowed_order_upper in Hm.
  assert (Hsp : count c " " = 0) by by_metachar.
  assert (Hasc : count c "ASC" = 0) by by_metachar.
  assert (Hdesc : count c "DESC" = 0) by by_metachar.
  intros _. rewrite !count_append.
  destruct Hm as [-> | ->]; lia.
Qed.

Lemma clean_parts {A} (render : A -> string) (fault_of : A -> option fault)
  (l : list A) :
  (forall x, fault_of x = None -> count c (render x) = 0) ->
  first_fault fault_of l = None ->
  list_sum (List.map (count c) (List.map render l)) = 0.
Proof.
  intros Hx H. apply first_fault_none in H.
  rewrite list_sum_map_map. apply list_sum_zero.
  revert H. apply Forall_impl. exact Hx.
Qed.

Lemma clean_names (names : list string) :
  first_fault name_fault names = None ->
  list_sum (List.map (count c) names) = 0.
Proof.
  intros H. rewrite <- (map_id names) at 1.
  now apply (clean_parts (fun n => n) name_fault names name_clean).
Qed.

Lemma projection_clean
  (selected_columns group_by : option (list string))
  (aggregates : option (list aggregate)) :
  projection_fault selected_columns group_by aggregates = None ->
  list_sum (List.map (count c)
              (projection selected_columns group_by aggregates)) = 0.
Proof.
  unfold projection_fault, projection. intros H.
  apply or_else_none in H. destruct H as [Hs H].
  apply or_else_none in H. destruct H as [Hg Ha].
  destruct (given group_by).
  - rewrite map_app, list_sum_app, (clean_names _ Hg).
    now rewrite (clean_parts render_aggregate aggregate_fault _
                   render_aggregate_clean Ha).
  - destruct (given selected_columns); [now apply clean_names|].
    assert (Hstar : count c "*" = 0) by by_metachar.
    change (list_sum (List.map (count c) ["*"])) with (count c "*" + 0).
    now rewrite Hstar.
Qed.

(** X6.  On a request without fault the statement holds no semicolon,
    quote, backslash, hyphen, slash or hash sign beyond those of the
    table expression: neither a column, alias, operator, function or
    direction nor any filter, limit or offset value can put one in. *)
Theorem statement_free_of_metachars
  (table_expr : string)
  (selected_columns : option (list string))
  (filters : option (list filter))
  (group_by : option (list string))
  (order_by : option (list ordering))
  (limit : option Z) (offset : Z)
  (aggregates : option (list aggregate)) :
  query_fault selected_columns filters group_by order_by aggregates = None ->
  exists statement params,
    _build_query table_expr selected_columns filters group_by order_by
      limit offset aggregates
    = Value (Some statement, Params params)
    /\ count c statement = count c table_expr.
Proof.
  intros Hq. rewrite build_query_spec. unfold expected_outcome. rewrite Hq.
  eexists _, _. split; [reflexivity|].
  unfold query_fault in Hq.
  apply or_else_none in Hq. destruct Hq as [Hp Hq].
  apply or_else_none in Hq. destruct Hq as [Hf Ho].
  assert (Hg : first_fault name_fault (items group_by) = None).
  { unfold projection_fault in Hp.
    apply or_else_none in Hp. destruct Hp as [_ Hp].
    now apply or_else_none in Hp. }
  unfold body_text, select_from, where_clause, group_clause, order_clause.
  rewrite !count_append.
  rewrite !count_clause by by_metachar.
  rewrite count_join by by_metachar.
  rewrite (projection_clean _ _ _ Hp), (clean_names _ Hg),
    (clean_parts render_filter filter_fault _ render_filter_clean Hf),
    (clean_parts render_order order_fault _ render_order_clean Ho).
  replace (count c "SELECT ") with 0 by by_metachar.
  replace (count c " FROM ") with 0 by by_metachar.
  replace (count c (limit_clause limit)) with 0
    by (destruct limit; by_metachar).
  replace (count c (offset_clause offset)) with 0
    by (unfold offset_clause; destruct (Z.eqb offset 0); by_metachar).
  lia.
Qed.

End Metachars.

Lemma statement_free_of_metachars_witness :
  In ";"%char sql_metachars
  /\ query_fault None
       (Some [Filter (VStr "name") (Some (VStr "=")) (VStr "x'; DROP TABLE t; --")])
       None None None = None
  /\ exists statement params,
      _build_query "read_parquet(?)" None
        (Some [Filter (VStr "name") (Some (VStr "=")) (VStr "x'; DROP TABLE t; --")])
        None None None 0%Z None
      = Value (Some statement, Params params)
      /\ count ";" statement = count ";" "read_parquet(?)".
Proof.
  split; [simpl; auto|]. split; [reflexivity|].
  apply (statement_free_of_metachars ";"%char); [simpl; auto | reflexivity].
Defined.

(** ** Values stay out of the statement *)

Section Values.

Local Arguments String.append : simpl never.
Local Arguments member : simpl never.

Lemma same_shape_filter (f g : filter) :
  same_shape f g -> filter_fault f = None ->
  filter_fault g = None
  /\ render_filter f = render_filter g
  /\ List.length (filter_params f) = List.length (filter_params g).
Proof.
  intros [Hcol [Hop Hlen]].
  assert (Hoper : filter_operator f = filter_operator g)
    by (unfold filter_operator; now rewrite Hop).
  assert (Hin : is_in f = is_in g) by (unfold is_in; now rewrite Hoper).
  unfold filter_fault, render_filter, filter_params.
  rewrite <- Hcol, <- Hoper, <- Hin.
  destruct (column_fault (filter_column f)); [discriminate|].
  destruct (member (filter_operator f) ALLOWED_OPERATORS); [|discriminate].
  destruct (is_in f).
  - specialize (Hlen eq_refl). rewrite <- Hlen.
    destruct (in_values (filter_value f)) as [|v vs]; [discriminate|].
    destruct (in_values (filter_value g)) as [|w ws]; [discriminate|].
    auto.
  - auto.
Qed.

Lemma same_shape_filters (fs gs : list filter) :
  Forall2 same_shape fs gs -> first_fault filter_fault fs = None ->
  first_fault filter_fault gs = None
  /\ List.map render_filter fs = List.map render_filter gs
  /\ List.length (filter_values fs) = List.length (filter_values gs).
Proof.
  induction 1 as [|f g fs gs Hfg _ IH]; simpl; [auto|].
  destruct (filter_fault f) eqn:Hf; [discriminate|]. intros Hrest.
  destruct (same_shape_filter f g Hfg Hf) as [Hg [Hr Hl]].
  destruct (IH Hrest) as [Hgs [Hrs Hls]].
  rewrite Hg, Hr, Hrs. unfold filter_values in *. simpl.
  rewrite !length_app. auto.
Qed.

(** X7.  Filter values never reach the statement text: two requests
    whose filters agree on columns and operators, and on the number of
    elements of each [in] list, get the same statement (when one is
    without fault, so is the other), with parameter lists of the same
    length. *)
Theorem statement_independent_of_values
  (table_expr : string)
  (selected_columns : option (list string))
  (filters others : list filter)
  (group_by : option (list string))
  (order_by : option (list ordering))
  (limit : option Z) (offset : Z)
  (aggregates : option (list aggregate)) :
  Forall2 same_shape filters others ->
  query_fault selected_columns (Some filters) group_by order_by aggregates
  = None ->
  exists statement params params',
    _build_query table_expr selected_columns (Some filters) group_by order_by
      limit offset aggregates
    = Value (Some statement, Params params)
    /\ _build_query table_expr selected_columns (Some others) group_by order_by
         limit offset aggregates
       = Value (Some statement, Params params')
    /\ List.length params = List.length params'.
Proof.
  intros Hshape Hq. rewrite !build_query_spec. unfold expected_outcome.
  rewrite Hq. unfold query_fault in *.
  apply or_else_none in Hq. destruct Hq as [Hp Hq].
  apply or_else_none in Hq. destruct Hq as [Hf Ho].
  cbn [items] in *.
  destruct (same_shape_filters _ _ Hshape Hf) as [Hg [Hr Hl]].
  rewrite Hp, Hg, Ho. cbn [or_else].
  eexists _, _, _. split; [reflexivity|]. split.
  - unfold body_text, where_clause. cbn [items]. now rewrite Hr.
  - rewrite !length_app. now rewrite Hl.
Qed.

Lemma statement_independent_of_values_witness :
  Forall2 same_shape [age_filter; in_filter]
    [Filter (VStr "age") (Some (VStr ">")) (VStr "0 OR 1=1");
     Filter (VStr "id") (Some (VStr "IN")) (VList [VNone; VStr "x"; VInt 9])]
  /\ query_fault None (Some [age_filter; in_filter]) None None None = None
  /\ exists statement params params',
      _build_query "t" None (Some [age_filter; in_filter]) None None
        None 0%Z None
      = Value (Some statement, Params params)
      /\ _build_query "t" None
           (Some [Filter (VStr "age") (Some (VStr ">")) (VStr "0 OR 1=1");
                  Filter (VStr "id") (Some (VStr "IN"))
                    (VList [VNone; VStr "x"; VInt 9])])
           None None None 0%Z None
         = Value (Some statement, Params params')
      /\ List.length params = List.length params'.
Proof.
  assert (Hshape : Forall2 same_shape [age_filter; in_filter]
            [Filter (VStr "age") (Some (VStr ">")) (VStr "0 OR 1=1");
             Filter (VStr "id") (Some (VStr "IN"))
               (VList [VNone; VStr "x"; VInt 9])]).
  { repeat constructor. }
  split; [exact Hshape|]. split; [reflexivity|].
  apply (statement_independent_of_values "t" None [age_filter; in_filter] _
           None None None 0%Z None Hshape).
  reflexivity.
Defined.

End Values.

(** ** The validator, in full *)

Section Validator.

(** X8.  The validator accepts a name exactly when the whole name is a
    letter or underscore followed by letters, digits and underscores,
    or is such a text followed by one newline; the empty name
    is refused. *)
Theorem validator_accepts_exactly (name : string) :
  (_validate_identifier name = true
   <-> identifier_fullmatch name = true
       \/ exists stem,
           name = stem ++ String newline ""
           /\ identifier_fullmatch stem = true)
  /\ _validate_identifier "" = false.
Proof.
  split; [|reflexivity].
  rewrite validate_identifier_spec. split.
  - intros H. apply orb_prop in H. destruct H as [H|H]; [now left|].
    destruct (strip_newline name) as [stem|] eqn:Hs; [|discriminate].
    right. exists stem. split; [now apply strip_newline_sound | exact H].
  - intros [H|[stem [-> H]]].
    + now rewrite H.
    + rewrite strip_newline_complete, H. apply orb_true_r.
Qed.

(** X9.  The validator refuses every name that starts with a digit and
    every name that holds a character other than a letter, a digit, an
    underscore or a newline: a space, a quote, a semicolon, a dot, a
    parenthesis and so on. *)
Theorem validator_refuses (name : string) :
  (exists d rest, name = String d rest /\ Re.digit d = true)
  \/ (exists ch,
         contains ch name = true
         /\ body_class ch = false /\ code ch <> 10) ->
  _validate_identifier name = false.
Proof.
  intros [[d [rest [-> Hd]]]|[ch [Hin [Hb Hn]]]].
  - now apply validate_rejects_leading_digit.
  - destruct (_validate_identifier name) eqn:Hv; [|reflexivity].
    pose proof (validate_contains name ch Hv Hin) as H.
    unfold body_or_newline in H. rewrite Hb in H. simpl in H.
    apply Nat.eqb_eq in H. contradiction.
Qed.

Lemma validator_refuses_witness :
  ((exists d rest, "users.name" = String d rest /\ Re.digit d = true)
   \/ (exists ch,
          contains ch "users.name" = true
          /\ body_class ch = false /\ code ch <> 10))
  /\ _validate_identifier "users.name" = false.
Proof.
  assert (H : (exists d rest, "users.name" = String d rest /\ Re.digit d = true)
              \/ (exists ch,
                     contains ch "users.name" = true
                     /\ body_class ch = false /\ code ch <> 10)).
  { right. exists "."%char. repeat split. discriminate. }
  split; [exact H|]. exact (validator_refuses "users.name" H).
Defined.

End Validator.

(** ** The three tools, check by check *)

Section ToolChecks.

Local Arguments String.append : simpl never.

(** X10.  [parquet_read] answers a negative offset or limit first of
    all: the error is "offset and limit must be non-negative" whatever
    the path is, and nothing outside the process has been called. *)
Theorem negative_window_rejected_first
  (w : world) (path workspace_id agent_id session_id : string)
  (limit : option Z) (offset : Z)
  (selected_columns : option (list string))
  (filters : option (list filter))
  (group_by : option (list string))
  (order_by : option (list ordering))
  (aggregates : option (list aggregate)) :
  (offset < 0)%Z \/ (exists n, limit = Some n /\ (n < 0)%Z) ->
  perform (parquet_read w path workspace_id agent_id session_id limit offset
             selected_columns filters group_by order_by aggregates)
  = (Value (Error "offset and limit must be non-negative"), []).
Proof.
  intros H. unfold perform, parquet_read.
  assert (Hguard : (offset <? 0)%Z
                   || match limit with Some n => (n <? 0)%Z | None => false end
                   = true).
  { destruct H as [H|[n [-> H]]].
    - apply Z.ltb_lt in H. now rewrite H.
    - apply Z.ltb_lt in H. rewrite H. apply orb_true_r. }
  now rewrite Hguard.
Qed.

Lemma negative_window_witness :
  ((0 < 0)%Z \/ (exists n, Some (-1)%Z = Some n /\ (n < 0)%Z))
  /\ perform (parquet_read stocked_workspace "notes.txt" "ws" "agent" "session"
                (Some (-1)%Z) 0%Z None None None None None)
     = (Value (Error "offset and limit must be non-negative"), []).
Proof.
  assert (H : (0 < 0)%Z \/ (exists n, Some (-1)%Z = Some n /\ (n < 0)%Z)).
  { right. exists (-1)%Z. split; [reflexivity | lia]. }
  split; [exact H|].
  exact (negative_window_rejected_first stocked_workspace "notes.txt" "ws"
           "agent" "session" (Some (-1)%Z) 0%Z None None None None None H).
Defined.

(** X11.  [parquet_write] with a [.parquet] path and an empty column
    list returns "columns cannot be empty" before anything outside the
    process is called. *)
Theorem empty_columns_rejected
  (w : world) (path workspace_id agent_id session_id : string)
  (rows : list record) :
  endswith (lower path) ".parquet" = true ->
  perform (parquet_write w path workspace_id agent_id session_id [] rows)
  = (Value (Error "columns cannot be empty"), []).
Proof. intros H. unfold perform, parquet_write. now rewrite H. Qed.

Lemma empty_columns_witness :
  endswith (lower "out.parquet") ".parquet" = true
  /\ perform (parquet_write stocked_workspace "out.parquet" "ws" "agent"
                "session" [] [[("id", VInt 1)]])
     = (Value (Error "columns cannot be empty"), []).
Proof.
  split; [reflexivity|].
  apply (empty_columns_rejected stocked_workspace "out.parquet" "ws" "agent"
           "session" [[("id", VInt 1)]]).
  reflexivity.
Defined.

(** X12.  When the engine module cannot be imported, a request that
    passes the argument checks gets "duckdb is required for parquet
    tools" from each of the three tools, and the failed import is the
    only step taken: no path is resolved and no file is touched. *)
Theorem engine_module_required
  (w : world) (path workspace_id agent_id session_id : string)
  (limit : option Z) (offset : Z)
  (selected_columns : option (list string))
  (filters : option (list filter))
  (group_by : option (list string))
  (order_by : option (list ordering))
  (aggregates : option (list aggregate))
  (column : string) (columns : list string) (rows : list record) :
  duckdb_installed w = false ->
  endswith (lower path) ".parquet" = true ->
  (offset <? 0)%Z
  || match limit with Some n => (n <? 0)%Z | None => false end = false ->
  perform (parquet_read w path workspace_id agent_id session_id limit offset
             selected_columns filters group_by order_by aggregates)
  = (Value (Error "duckdb is required for parquet tools"), [Import "duckdb"])
  /\ perform (parquet_write w path workspace_id agent_id session_id
                (column :: columns) rows)
     = (Value (Error "duckdb is required for parquet tools"), [Import "duckdb"])
  /\ perform (parquet_info w path workspace_id agent_id session_id)
     = (Value (Error "duckdb is required for parquet tools"), [Import "duckdb"]).
Proof.
  intros Hdb Hext Hargs. repeat apply conj.
  - unfold perform, parquet_read. rewrite Hargs, Hext.
    unfold _require_duckdb, io_bind, call, io_next, io_return.
    now rewrite Hdb.
  - unfold perform, parquet_write. rewrite Hext.
    unfold _require_duckdb, io_bind, call, io_next, io_return.
    now rewrite Hdb.
  - unfold perform, parquet_info. rewrite Hext.
    unfold _require_duckdb, io_bind, call, io_next, io_return.
    now rewrite Hdb.
Qed.

Lemma engine_module_required_witness :
  duckdb_installed bare_interpreter = false
  /\ endswith (lower "basic.parquet") ".parquet" = true
  /\ ((0 <? 0)%Z || false = false)
  /\ perform (parquet_read bare_interpreter "basic.parquet" "ws" "agent"
                "session" None 0%Z None None None None None)
     = (Value (Error "duckdb is required for parquet tools"), [Import "duckdb"])
  /\ perform (parquet_write bare_interpreter "basic.parquet" "ws" "agent"
                "session" ("id" :: []) [])
     = (Value (Error "duckdb is required for parquet tools"), [Import "duckdb"])
  /\ perform (parquet_info bare_interpreter "basic.parquet" "ws" "agent"
                "session")
     = (Value (Error "duckdb is required for parquet tools"), [Import "duckdb"]).
Proof.
  split; [reflexivity|]. split; [reflexivity|]. split; [reflexivity|].
  apply (engine_module_required bare_interpreter "basic.parquet" "ws" "agent"
           "session" None 0%Z None None None None None "id" [] []);
    reflexivity.
Defined.

Lemma try_except_settles {A} (body : io response A)
  (handler : pyexn -> io response A) (tr : list event) :
  (forall e tr', settled (handler e tr')) ->
  settled (try_except body handler tr).
Proof.
  intros Hh. unfold try_except, settled in *.
  destruct (body tr) as [[a|r|e] tr']; simpl; auto. apply Hh.
Qed.

Lemma settled_value (x : flow response response * list event) :
  settled x -> exists r, fst (let (m, tr) := x in (run m, tr)) = Value r.
Proof.
  unfold settled. destruct x as [[a|r|e] tr]; simpl; intros H;
    [now exists a | now exists r | contradiction].
Qed.

(** X13.  None of the three tools ever raises: whatever the request
    and whatever the resolver, the file system, pandas or the engine
    do, the caller gets a response dictionary. *)
Theorem tools_never_raise
  (w : world) (path workspace_id agent_id session_id : string)
  (limit : option Z) (offset : Z)
  (selected_columns : option (list string))
  (filters : option (list filter))
  (group_by : option (list string))
  (order_by : option (list ordering))
  (aggregates : option (list aggregate))
  (columns : list string) (rows : list record) :
  (exists r,
      fst (perform (parquet_read w path workspace_id agent_id session_id limit
                      offset selected_columns filters group_by order_by
                      aggregates))
      = Value r)
  /\ (exists r,
         fst (perform (parquet_write w path workspace_id agent_id session_id
                         columns rows))
         = Value r)
  /\ (exists r,
         fst (perform (parquet_info w path workspace_id agent_id session_id))
         = Value r).
Proof.
  repeat apply conj.
  - unfold perform, parquet_read.
    destruct ((offset <? 0)%Z
              || match limit with Some n => (n <? 0)%Z | None => false end);
      [eexists; reflexivity|].
    destruct (negb (endswith (lower path) ".parquet"));
      [eexists; reflexivity|].
    unfold io_bind at 1. unfold _require_duckdb, io_bind at 1, call, io_next.
    destruct (duckdb_installed w); [|eexists; reflexivity].
    apply settled_value, try_except_settles. intros e tr'. exact I.
  - unfold perform, parquet_write.
    destruct (negb (endswith (lower path) ".parquet"));
      [eexists; reflexivity|].
    destruct columns as [|column columns]; [eexists; reflexivity|].
    unfold io_bind at 1. unfold _require_duckdb, io_bind at 1, call, io_next.
    destruct (duckdb_installed w); [|eexists; reflexivity].
    apply settled_value, try_except_settles. intros e tr'. exact I.
  - unfold perform, parquet_info.
    destruct (negb (endswith (lower path) ".parquet"));
      [eexists; reflexivity|].
    unfold io_bind at 1. unfold _require_duckdb, io_bind at 1, call, io_next.
    destruct (duckdb_installed w); [|eexists; reflexivity].
    apply settled_value, try_except_settles. intros e tr'. exact I.
Qed.

End ToolChecks.

(** ** [parquet_read] beyond its checks *)

Section Reading.

Local Arguments String.append : simpl never.

Variable w : world.
Variables path workspace_id agent_id session_id secure_path : string.
Variable limit : option Z.
Variable offset : Z.
Variable selected_columns : option (list string).
Variable filters : option (list filter).
Variable group_by : option (list string).
Variable order_by : option (list ordering).
Variable aggregates : option (list aggregate).

Hypothesis Hargs :
  (offset <? 0)%Z
  || match limit with Some n => (n <? 0)%Z | None => false end = false.
Hypothesis Hext : endswith (lower path) ".parquet" = true.
Hypothesis Hdb : duckdb_installed w = true.
Hypothesis Hpath :
  get_secure_path w path workspace_id agent_id session_id = Value secure_path.
Hypothesis Hfound : path_exists w secure_path = true.

Let read :=
  parquet_read w path workspace_id agent_id session_id limit offset
    selected_columns filters group_by order_by aggregates.

Let statement :=
  body_text "read_parquet(?)" selected_columns filters group_by order_by
    aggregates
  ++ limit_clause limit ++ offset_clause offset.

Let params :=
  VStr secure_path
  :: (filter_values (items filters)
      ++ limit_params limit ++ offset_params offset)%list.

Let at_file :=
  (opening path workspace_id agent_id session_id
   ++ [PathExists secure_path])%list.

Lemma statement_starts :
  exists tl, statement = String "S" tl.
Proof.
  unfold statement, body_text, select_from.
  eexists. autorewrite with text. reflexivity.
Qed.

(** X14.  A request for a file that is there, whose query has a fault,
    is answered without the engine: an error dictionary with the
    builder's message (or, when the builder raised on a non-string
    column, "Failed to read parquet" with the exception's text), after
    the existence check and before any connection is opened. *)
Theorem faulty_query_never_connects (f : fault) :
  query_fault selected_columns filters group_by order_by aggregates = Some f ->
  perform read = (Value (fault_response w f), at_file).
Proof.
  intros Hq. unfold read, perform, parquet_read. rewrite Hargs, Hext.
  unfold _require_duckdb, try_except, io_bind, call, lift, io_next, io_return.
  rewrite Hdb, Hpath, Hfound. cbn [negb append app].
  rewrite build_query_spec. unfold expected_outcome. rewrite Hq.
  destruct f; reflexivity.
Qed.

(** X15.  A request for a file that is there, with a query without
    fault, opens one connection and runs two statements: the built
    statement, with the resolved path bound in front of the builder's
    parameters, and the unfiltered count bound to the same path.  When
    both succeed the response carries the engine's columns and rows
    with their numbers, the count's first cell as [total_rows], and
    the offset and limit as they were passed. *)
Theorem read_success (result counted : table) (total : pyval)
  (cells : list pyval) (more : list (list pyval)) :
  query_fault selected_columns filters group_by order_by aggregates = None ->
  execute w statement params = Value result ->
  execute w count_statement [VStr secure_path] = Value counted ->
  table_rows counted = (total :: cells) :: more ->
  perform read
  = (Value (ReadOk path (table_columns result)
              (List.length (table_columns result))
              (table_rows result) (List.length (table_rows result))
              total offset limit),
     (at_file
      ++ [Connect;
          Execute statement params;
          Execute count_statement [VStr secure_path]])%list).
Proof.
  intros Hq Hrun Hcount Hrows. unfold read, perform, parquet_read.
  rewrite Hargs, Hext.
  unfold _require_duckdb, try_except, io_bind, call, lift, io_next, io_return.
  rewrite Hdb, Hpath, Hfound. cbn [negb append app].
  rewrite build_query_spec. unfold expected_outcome. rewrite Hq.
  fold statement. destruct statement_starts as [tl Htl].
  rewrite Htl. rewrite <- Htl. cbn [unpack]. fold params.
  rewrite Hrun, Hcount. unfold fetchone_0, first_cell, io_next.
  rewrite Hrows. reflexivity.
Qed.

(** X16.  When the engine raises, on the built statement or on the
    count that follows it, [parquet_read] returns "Failed to read
    parquet: " followed by the text of the exception, and the trace
    ends with the statement that failed. *)
Theorem read_engine_failure (e : pyexn) (result : table) :
  query_fault selected_columns filters group_by order_by aggregates = None ->
  (execute w statement params = Throw e ->
   perform read
   = (Value (Error ("Failed to read parquet: " ++ exc_text w e)),
      (at_file ++ [Connect; Execute statement params])%list))
  /\ (execute w statement params = Value result ->
      execute w count_statement [VStr secure_path] = Throw e ->
      perform read
      = (Value (Error ("Failed to read parquet: " ++ exc_text w e)),
         (at_file
          ++ [Connect;
              Execute statement params;
              Execute count_statement [VStr secure_path]])%list)).
Proof.
  intros Hq.
  assert (Hstep : perform read
                  = perform (fun tr =>
                      try_except
                        (fun tr =>
                           io_bind (call Connect (Value tt)) (fun _ =>
                           io_bind (call (Execute statement params)
                                      (execute w statement params))
                             (fun result =>
                           io_bind (call (Execute count_statement
                                            [VStr secure_path])
                                      (execute w count_statement
                                         [VStr secure_path]))
                             (fun counted =>
                           io_bind (fetchone_0 counted) (fun total_rows =>
                           io_return
                             (ReadOk path (table_columns result)
                                (List.length (table_columns result))
                                (table_rows result)
                                (List.length (table_rows result))
                                total_rows offset limit))))) tr)
                        (fun exc =>
                           io_return
                             (Error ("Failed to read parquet: "
                                     ++ exc_text w exc)))
                        at_file)).
  { unfold read, perform, parquet_read. rewrite Hargs, Hext.
    unfold _require_duckdb, try_except, io_bind, call, lift, io_next,
      io_return.
    rewrite Hdb, Hpath, Hfound. cbn [negb append app].
    rewrite build_query_spec. unfold expected_outcome. rewrite Hq.
    fold statement. destruct statement_starts as [tl Htl].
    rewrite Htl. rewrite <- Htl. cbn [unpack]. fold params.
    reflexivity. }
  rewrite Hstep. split.
  - intros Hrun. unfold perform, try_except, io_bind, call, io_return.
    rewrite Hrun. reflexivity.
  - intros Hrun Hcount. unfold perform, try_except, io_bind, call, io_return.
    rewrite Hrun, Hcount. reflexivity.
Qed.

End Reading.

Lemma faulty_query_witness :
  ((0 <? 0)%Z || false = false)
  /\ endswith (lower "basic.parquet") ".parquet" = true
  /\ duckdb_installed stocked_workspace = true
  /\ get_secure_path stocked_workspace "basic.parquet" "ws" "agent" "session"
     = Value "/workspaces/basic.parquet"
  /\ path_exists stocked_workspace "/workspaces/basic.parquet" = true
  /\ query_fault None (Some [unsupported_filter]) None None None
     = Some (Rejected "Unsupported operator: likes")
  /\ perform (parquet_read stocked_workspace "basic.parquet" "ws" "agent"
                "session" None 0%Z None (Some [unsupported_filter]) None None
                None)
     = (Value (Error "Unsupported operator: likes"),
        [Import "duckdb";
         ResolvePath "basic.parquet" "ws" "agent" "session";
         PathExists "/workspaces/basic.parquet"]).
Proof.
  repeat (split; [reflexivity|]).
  exact (faulty_query_never_connects stocked_workspace "basic.parquet" "ws"
           "agent" "session" "/workspaces/basic.parquet" None 0%Z None
           (Some [unsupported_filter]) None None None
           eq_refl eq_refl eq_refl eq_refl eq_refl
           (Rejected "Unsupported operator: likes") eq_refl).
Defined.

Lemma read_success_witness :
  ((0 <? 0)%Z || (2 <? 0)%Z = false)
  /\ endswith (lower "basic.parquet") ".parquet" = true
  /\ duckdb_installed stocked_workspace = true
  /\ get_secure_path stocked_workspace "basic.parquet" "ws" "agent" "session"
     = Value "/workspaces/basic.parquet"
  /\ path_exists stocked_workspace "/workspaces/basic.parquet" = true
  /\ query_fault None (Some [age_filter]) None None None = None
  /\ perform (parquet_read stocked_workspace "basic.parquet" "ws" "agent"
                "session" (Some 2%Z) 0%Z None (Some [age_filter]) None None
                None)
     = (Value (ReadOk "basic.parquet" ["id"; "name"; "age"] 3
                 (table_rows people) 3 (VInt 3) 0%Z (Some 2%Z)),
        [Import "duckdb";
         ResolvePath "basic.parquet" "ws" "agent" "session";
         PathExists "/workspaces/basic.parquet";
         Connect;
         Execute "SELECT * FROM read_parquet(?) WHERE age > ? LIMIT ?"
           [VStr "/workspaces/basic.parquet"; VInt 30; VInt 2];
         Execute count_statement [VStr "/workspaces/basic.parquet"]]).
Proof.
  repeat (split; [reflexivity|]).
  exact (read_success stocked_workspace "basic.parquet" "ws" "agent" "session"
           "/workspaces/basic.parquet" (Some 2%Z) 0%Z None (Some [age_filter])
           None None None eq_refl eq_refl eq_refl eq_refl eq_refl
           people (Table ["count_star()"] [[VInt 3]]) (VInt 3) [] []
           eq_refl eq_refl eq_refl eq_refl).
Defined.

Lemma read_engine_failure_witness :
  ((0 <? 0)%Z || false = false)
  /\ endswith (lower "basic.parquet") ".parquet" = true
  /\ duckdb_installed corrupt_workspace = true
  /\ get_secure_path corrupt_workspace "basic.parquet" "ws" "agent" "session"
     = Value "/workspaces/basic.parquet"
  /\ path_exists corrupt_workspace "/workspaces/basic.parquet" = true
  /\ query_fault None None None None None = None
  /\ perform (parquet_read corrupt_workspace "basic.parquet" "ws" "agent"
                "session" None 0%Z None None None None None)
     = (Value (Error "Failed to read parquet: Invalid Input Error: no magic bytes"),
        [Import "duckdb";
         ResolvePath "basic.parquet" "ws" "agent" "session";
         PathExists "/workspaces/basic.parquet";
         Connect;
         Execute "SELECT * FROM read_parquet(?)"
           [VStr "/workspaces/basic.parquet"]]).
Proof.
  repeat (split; [reflexivity|]).
  exact (proj1 (read_engine_failure corrupt_workspace "basic.parquet" "ws"
                  "agent" "session" "/workspaces/basic.parquet" None 0%Z None
                  None None None None eq_refl eq_refl eq_refl eq_refl eq_refl
                  (External "Invalid Input Error: no magic bytes") people
                  eq_refl)
           eq_refl).
Defined.

(** ** Paths the resolver refuses, writing, and file metadata *)

Section WritingAndInfo.

Local Arguments String.append : simpl never.

Variable w : world.
Variables path workspace_id agent_id session_id : string.

Hypothesis Hext : endswith (lower path) ".parquet" = true.
Hypothesis Hdb : duckdb_installed w = true.

(** X17.  When the path resolver raises (a path outside the sandbox,
    say), each tool returns its "Failed to ..." error with the text of
    the exception, and the resolver call is the last step taken: no
    file is looked up, no directory made, no connection opened. *)
Theorem refused_path_untouched
  (limit : option Z) (offset : Z)
  (selected_columns : option (list string))
  (filters : option (list filter))
  (group_by : option (list string))
  (order_by : option (list ordering))
  (aggregates : option (list aggregate))
  (column : string) (columns : list string) (rows : list record)
  (e : pyexn) :
  get_secure_path w path workspace_id agent_id session_id = Throw e ->
  ((offset <? 0)%Z
   || match limit with Some n => (n <? 0)%Z | None => false end = false ->
   perform (parquet_read w path workspace_id agent_id session_id limit offset
              selected_columns filters group_by order_by aggregates)
   = (Value (Error ("Failed to read parquet: " ++ exc_text w e)),
      opening path workspace_id agent_id session_id))
  /\ (pandas_installed w = true ->
      perform (parquet_write w path workspace_id agent_id session_id
                 (column :: columns) rows)
      = (Value (Error ("Failed to write parquet: " ++ exc_text w e)),
         [Import "duckdb"; Import "pandas";
          ResolvePath path workspace_id agent_id session_id]))
  /\ perform (parquet_info w path workspace_id agent_id session_id)
     = (Value (Error ("Failed to read parquet info: " ++ exc_text w e)),
        opening path workspace_id agent_id session_id).
Proof.
  intros Hpath. repeat apply conj.
  - intros Hargs. unfold perform, parquet_read. rewrite Hargs, Hext.
    unfold _require_duckdb, try_except, io_bind, call, io_next, io_return.
    rewrite Hdb, Hpath. reflexivity.
  - intros Hpd. unfold perform, parquet_write. rewrite Hext.
    unfold _require_duckdb, try_except, io_bind, call, io_next, io_return.
    rewrite Hdb, Hpd, Hpath. reflexivity.
  - unfold perform, parquet_info. rewrite Hext.
    unfold _require_duckdb, try_except, io_bind, call, io_next, io_return.
    rewrite Hdb, Hpath. reflexivity.
Qed.

(** X18.  A write that meets no failure imports pandas, resolves the
    path, creates the parent directory exactly when the resolved path
    has one, builds the frame, and hands the engine one fixed statement
    with the resolved path as its only parameter; the response echoes
    the path and columns and reports the frame's length as
    [rows_written]. *)
Theorem write_success
  (secure_path column : string) (columns : list string) (rows : list record)
  (written : nat) (copied : table) :
  pandas_installed w = true ->
  get_secure_path w path workspace_id agent_id session_id = Value secure_path ->
  (String.eqb (dirname w secure_path) "" = false ->
   makedirs w (dirname w secure_path) = Value tt) ->
  dataframe_len w rows (column :: columns) = Value written ->
  execute w copy_statement [VStr secure_path] = Value copied ->
  perform (parquet_write w path workspace_id agent_id session_id
             (column :: columns) rows)
  = (Value (WriteOk path (column :: columns)
              (List.length (column :: columns)) written),
     ([Import "duckdb"; Import "pandas";
       ResolvePath path workspace_id agent_id session_id]
      ++ (if String.eqb (dirname w secure_path) "" then []
          else [MakeDirs (dirname w secure_path)])
      ++ copying rows (column :: columns) secure_path)%list).
Proof.
  intros Hpd Hpath Hmk Hdf Hcopy. unfold perform, parquet_write. rewrite Hext.
  unfold _require_duckdb, try_except, io_bind, call, io_next, io_return.
  rewrite Hdb, Hpd, Hpath. cbn [append app].
  destruct (String.eqb (dirname w secure_path) "") eqn:Hdir; cbn [negb].
  - rewrite Hdf, Hcopy. reflexivity.
  - rewrite (Hmk eq_refl), Hdf, Hcopy. reflexivity.
Qed.


Lemma first_cells_total (rows : list (list pyval)) (tr : list event) :
  forallb has_cell rows = true ->
  first_cells (R:=response) rows tr = (Next (List.map (hd VNone) rows), tr).
Proof.
  induction rows as [|row rest IH]; simpl; [reflexivity|].
  intros H. apply andb_prop in H. destruct H as [Hrow Hrest].
  destruct row as [|c row]; [discriminate|].
  unfold io_bind, first_cell, io_next. simpl. now rewrite (IH Hrest).
Qed.

(** X20.  [parquet_info] on a file that is there runs the schema
    statement and the count, both bound to the resolved path, then asks
    for the file's size; its columns are the first cell of each schema
    row, in order, [column_count] is their number, [total_rows] the
    count's first cell and [file_size] what the file system says. *)
Theorem info_success
  (secure_path : string) (described counted : table) (total : pyval)
  (cells : list pyval) (more : list (list pyval)) (size : Z) :
  get_secure_path w path workspace_id agent_id session_id = Value secure_path ->
  path_exists w secure_path = true ->
  execute w describe_statement [VStr secure_path] = Value described ->
  forallb has_cell (table_rows described) = true ->
  execute w count_statement [VStr secure_path] = Value counted ->
  table_rows counted = (total :: cells) :: more ->
  getsize w secure_path = Value size ->
  perform (parquet_info w path workspace_id agent_id session_id)
  = (Value (InfoOk path (List.map (hd VNone) (table_rows described))
              (List.length (table_rows described)) total size),
     (opening path workspace_id agent_id session_id
      ++ [PathExists secure_path;
          Connect;
          Execute describe_statement [VStr secure_path];
          Execute count_statement [VStr secure_path];
          GetSize secure_path])%list).
Proof.
  intros Hpath Hfound Hdesc Hcells Hcount Hrows Hsize.
  unfold perform, parquet_info. rewrite Hext.
  unfold _require_duckdb, try_except, io_bind, call, io_next, io_return.
  rewrite Hdb, Hpath, Hfound. cbn [negb append app].
  rewrite Hdesc, (first_cells_total _ _ Hcells), Hcount.
  unfold fetchone_0, first_cell, io_next. rewrite Hrows, Hsize.
  rewrite length_map. reflexivity.
Qed.

End WritingAndInfo.

Lemma refused_path_witness :
  endswith (lower "../../secret.parquet") ".parquet" = true
  /\ duckdb_installed sealed_workspace = true
  /\ get_secure_path sealed_workspace "../../secret.parquet" "ws" "agent"
       "session"
     = Throw (External "Access denied: path traversal")
  /\ perform (parquet_info sealed_workspace "../../secret.parquet" "ws" "agent"
                "session")
     = (Value (Error "Failed to read parquet info: Access denied: path traversal"),
        [Import "duckdb";
         ResolvePath "../../secret.parquet" "ws" "agent" "session"]).
Proof.
  repeat (split; [reflexivity|]).
  apply (refused_path_untouched sealed_workspace "../../secret.parquet" "ws"
           "agent" "session" eq_refl eq_refl None 0%Z None None None None None
           "id" [] [] (External "Access denied: path traversal") eq_refl).
Defined.

Lemma write_success_witness :
  endswith (lower "written.parquet") ".parquet" = true
  /\ duckdb_installed stocked_workspace = true
  /\ pandas_installed stocked_workspace = true
  /\ get_secure_path stocked_workspace "written.parquet" "ws" "agent" "session"
     = Value "/workspaces/written.parquet"
  /\ dataframe_len stocked_workspace two_people ["id"; "name"] = Value 2
  /\ perform (parquet_write stocked_workspace "written.parquet" "ws" "agent"
                "session" ["id"; "name"] two_people)
     = (Value (WriteOk "written.parquet" ["id"; "name"] 2 2),
        [Import "duckdb"; Import "pandas";
         ResolvePath "written.parquet" "ws" "agent" "session";
         MakeDirs "/workspaces";
         DataFrame two_people ["id"; "name"];
         Connect;
         Register "data_df";
         Execute "COPY data_df TO ? (FORMAT PARQUET)"
           [VStr "/workspaces/written.parquet"]]).
Proof.
  repeat (split; [reflexivity|]).
  exact (write_success stocked_workspace "written.parquet" "ws" "agent"
           "session" eq_refl eq_refl "/workspaces/written.parquet" "id"
           ["name"] two_people 2 people eq_refl eq_refl (fun _ => eq_refl)
           eq_refl eq_refl).
Defined.


Lemma info_success_witness :
  endswith (lower "basic.parquet") ".parquet" = true
  /\ duckdb_installed stocked_workspace = true
  /\ get_secure_path stocked_workspace "basic.parquet" "ws" "agent" "session"
     = Value "/workspaces/basic.parquet"
  /\ path_exists stocked_workspace "/workspaces/basic.parquet" = true
  /\ forallb has_cell (table_rows people_schema) = true
  /\ perform (parquet_info stocked_workspace "basic.parquet" "ws" "agent"
                "session")
     = (Value (InfoOk "basic.parquet" [VStr "id"; VStr "name"; VStr "age"] 3
                 (VInt 3) 1024%Z),
        [Import "duckdb";
         ResolvePath "basic.parquet" "ws" "agent" "session";
         PathExists "/workspaces/basic.parquet";
         Connect;
         Execute describe_statement [VStr "/workspaces/basic.parquet"];
         Execute count_statement [VStr "/workspaces/basic.parquet"];
         GetSize "/workspaces/basic.parquet"]).
Proof.
  repeat (split; [reflexivity|]).
  exact (info_success stocked_workspace "basic.parquet" "ws" "agent" "session"
           eq_refl eq_refl "/workspaces/basic.parquet" people_schema
           (Table ["count_star()"] [[VInt 3]]) (VInt 3) [] [] 1024%Z
           eq_refl eq_refl eq_refl eq_refl eq_refl eq_refl eq_refl).
Defined.
